(** * Todo service: retry policy, outcome model and business operations

    A shallow embedding of the resilience wrapper
    ([src/infrastructure/resilience.ts]), the input validation
    ([src/utils/validation.ts]), the service ([services/todoService.ts])
    and the resolvers ([src/resolvers/todoResolver.ts]); further on, the
    event bus ([events/todoEvents.ts]), the health probes
    ([utils/health.ts]) and the renaming helpers of the auto-fix script.

    Conventions of the embedding:
    - an [async] function is a state transformer that either returns a
      value or throws ([M]); a rejected promise is a throw, and the state
      a computation reached when it threw is kept, as in JavaScript;
    - JavaScript numbers are exact: counters are integers ([Z]), delays
      are rationals ([Q]); rounding of doubles is not part of the model;
    - [Math.random], [new Date().toISOString()] and [uuidv4] read from
      sources carried by the world, one value per call;
    - what the program emits (log entries, timers, published events) is
      appended to a chronological trace. *)

From Stdlib Require Import String Ascii List Bool ZArith QArith Qpower Lia Lqa.
From Stdlib Require Import Permutation.
Import ListNotations.

Local Open Scope string_scope.
Local Open Scope list_scope.

Set Implicit Arguments.

(** ** Data model *)

(** [interface Todo] of the service, with the deprecated [notes] field.
    Optional fields are [option]s ([None] is [undefined] or [null]). *)
Module Todo.
Record t : Type := mk {
  id : string;
  title : string;
  description : option string;
  status : string;
  dueDate : option string;
  createdAt : string;
  updatedAt : string;
  completedAt : option string;
  notes : option string
}.
End Todo.

(** A row of the [todos] table, with the columns that the statements of
    the service and [mapRow] name. *)
Module Row.
Record t : Type := mk {
  id : string;
  title : string;
  description : option string;
  status : string;
  dueDate : option string;
  createdAt : string;
  updatedAt : string;
  completedAt : option string
}.
End Row.

(** [interface CreateTodoInput]; [None] is an absent key. *)
Module CreateTodoInput.
Record t : Type := mk {
  title : string;
  description : option string;
  dueDate : option string
}.
End CreateTodoInput.

(** [interface UpdateTodoInput]; [status] is the string that arrives,
    checked against the enum by the schema. *)
Module UpdateTodoInput.
Record t : Type := mk {
  title : option string;
  description : option string;
  status : option string;
  dueDate : option string
}.
End UpdateTodoInput.

(** One entry of [fields] in a validation error. *)
Record FieldError : Type := mkFieldError {
  field : string;
  fieldMessage : string
}.

(** An [Error] object: the properties the program reads or sets.
    [extensions] is empty except on a [GraphQLError]. *)
Module JsError.
Record t : Type := mk {
  code : option string;
  message : string;
  extensions : list (string * string)
}.
End JsError.

(** [new Error(msg)] *)
Definition newError (msg : string) : JsError.t :=
  JsError.mk None msg [].

(** [new GraphQLError(msg, { extensions })] *)
Definition newGraphQLError (msg : string) (ext : list (string * string))
  : JsError.t :=
  JsError.mk None msg ext.

(** The [TypeError] of reading property [prop] of [undefined] or [null]. *)
Definition typeError (prop : string) : JsError.t :=
  newError ("Cannot read properties of undefined (reading '" ++ prop ++ "')").

(** What a [catch (error: any)] can receive. *)
Inductive Thrown : Type :=
| ThrownNullish
| ThrownError (e : JsError.t).

(** [interface CloudEvent]; [data] keeps the keys in the order written. *)
Module CloudEvent.
Record t : Type := mk {
  id : string;
  source : string;
  specversion : string;
  type : string;
  datacontenttype : string;
  time : string;
  subject : string;
  data : list (string * option string)
}.
End CloudEvent.

(** ** Trace and world *)

Inductive Level : Type := LevelInfo | LevelWarn | LevelError.

(** Values of the metadata object of a log call. *)
Inductive LogValue : Type :=
| LvUndefined
| LvString (s : string)
| LvInt (z : Z)
| LvNumber (q : Q)
| LvStack (e : JsError.t)
| LvCreateInput (i : CreateTodoInput.t)
| LvUpdateInput (i : UpdateTodoInput.t)
| LvFields (fs : list FieldError).

Inductive Event : Type :=
| EvAttempt
| EvLog (level : Level) (correlationId : option string) (msg : string)
        (meta : list (string * LogValue))
| EvSleep (ms : Q)
| EvPublish (ev : CloudEvent.t).

(** The world a computation runs in.  [env] is the state of whatever the
    wrapped operation talks to; the three sources are read-only, each
    with the number of values already taken from it. *)
Record World (St : Type) : Type := mkWorld {
  env : St;
  random : nat -> Q;
  randomCalls : nat;
  clock : nat -> string;
  clockReads : nat;
  uuid : nat -> string;
  uuidCalls : nat;
  trace : list Event
}.

Inductive Outcome (A : Type) : Type :=
| Return (a : A)
| Throw (t : Thrown).
Arguments Throw {A} t.

Definition M (St A : Type) : Type := World St -> Outcome A * World St.

Section Monad.
Context {St : Type}.

Definition ret {A} (a : A) : M St A := fun w => (Return a, w).

Definition throw {A} (t : Thrown) : M St A := fun w => (Throw t, w).

Definition bind {A B} (m : M St A) (k : A -> M St B) : M St B :=
  fun w => match m w with
           | (Return a, w') => k a w'
           | (Throw t, w') => (Throw t, w')
           end.

(** [try { m } catch (error) { handler error }] *)
Definition tryCatch {A} (m : M St A) (handler : Thrown -> M St A) : M St A :=
  fun w => match m w with
           | (Return a, w') => (Return a, w')
           | (Throw t, w') => handler t w'
           end.

Definition emit (e : Event) : M St unit :=
  fun w => (Return tt,
            mkWorld (env w) (random w) (randomCalls w) (clock w) (clockReads w)
                    (uuid w) (uuidCalls w) (trace w ++ [e])).

(** Run an operation on the environment. *)
Definition onEnv {A} (f : St -> Outcome A * St) : M St A :=
  fun w => let (r, s) := f (env w) in
           (r, mkWorld s (random w) (randomCalls w) (clock w) (clockReads w)
                       (uuid w) (uuidCalls w) (trace w)).

(** [Math.random()] *)
Definition Math_random : M St Q :=
  fun w => (Return (random w (randomCalls w)),
            mkWorld (env w) (random w) (S (randomCalls w)) (clock w)
                    (clockReads w) (uuid w) (uuidCalls w) (trace w)).

(** [new Date().toISOString()] *)
Definition nowISO : M St string :=
  fun w => (Return (clock w (clockReads w)),
            mkWorld (env w) (random w) (randomCalls w) (clock w)
                    (S (clockReads w)) (uuid w) (uuidCalls w) (trace w)).

(** [uuidv4()] *)
Definition uuidv4 : M St string :=
  fun w => (Return (uuid w (uuidCalls w)),
            mkWorld (env w) (random w) (randomCalls w) (clock w)
                    (clockReads w) (uuid w) (S (uuidCalls w)) (trace w)).

(** [log.<level>(msg, meta)] on a logger bound to [cid]. *)
Definition logAt (level : Level) (cid : option string) (msg : string)
  (meta : list (string * LogValue)) : M St unit :=
  emit (EvLog level cid msg meta).

(** [await new Promise(resolve => setTimeout(resolve, ms))] *)
Definition sleep (ms : Q) : M St unit := emit (EvSleep ms).

(** [error.message] inside a [catch]: throws on [undefined]/[null]. *)
Definition messageOf (error : Thrown) : M St string :=
  match error with
  | ThrownNullish => throw (ThrownError (typeError "message"))
  | ThrownError e => ret (JsError.message e)
  end.

(** [error.code] inside a [catch]. *)
Definition codeOf (error : Thrown) : M St (option string) :=
  match error with
  | ThrownNullish => throw (ThrownError (typeError "code"))
  | ThrownError e => ret (JsError.code e)
  end.

End Monad.

Declare Scope js_scope.
Delimit Scope js_scope with js.
Notation "'let*' x ':=' m 'in' k" := (bind m (fun x => k))
  (at level 10, x name, m at level 100, k at level 200) : js_scope.
Notation "m ';;' k" := (bind m (fun _ => k))
  (at level 100, k at level 200, right associativity) : js_scope.
Local Open Scope js_scope.

(** ** Retry policy: [withRetry] *)

(** The allow-list of the [catch] block. *)
Definition isRetryableCode (c : option string) : bool :=
  match c with
  | Some s => (s =? "ECONNRESET") || (s =? "ETIMEDOUT") || (s =? "ECONNREFUSED")
  | None => false
  end.

Section Retry.
Context {St T : Type}.

(** [await fn()]: one attempt.  [EvAttempt] marks the invocation in the
    trace; it is the only event the source does not emit itself. *)
Definition attemptOnce (fn : St -> Outcome T * St) : M St T :=
  emit EvAttempt ;; onEnv fn.

(** The loop [for (let attempt = 0; attempt < maxRetries; attempt++)],
    entered with [remaining = maxRetries - attempt] iterations left to
    run: [O] is the loop test failing, which leads to the final
    [throw new Error('Max retries reached')]. *)
Fixpoint retryLoop (fn : St -> Outcome T * St) (maxRetries : Z)
  (baseDelay : Q) (remaining : nat) (attempt : Z) : M St T :=
  match remaining with
  | O => throw (ThrownError (newError "Max retries reached"))
  | S remaining' =>
      tryCatch (attemptOnce fn)
        (fun error =>
           let isLastAttempt := (attempt =? maxRetries - 1)%Z in
           let* c := codeOf error in
           let isRetryable := isRetryableCode c in
           if isLastAttempt || negb isRetryable then throw error
           else
             let delay := (baseDelay * Qpower 2 attempt)%Q in
             let* r := Math_random in
             let jitter := (r * 1000)%Q in
             let* msg := messageOf error in
             logAt LevelWarn None "Retry attempt"
                   [("attempt", LvInt (attempt + 1));
                    ("maxRetries", LvInt maxRetries);
                    ("delay", LvNumber (delay + jitter)%Q);
                    ("error", LvString msg)] ;;
             sleep (delay + jitter)%Q ;;
             retryLoop fn maxRetries baseDelay remaining' (attempt + 1)%Z)
  end.

Definition withRetry (fn : St -> Outcome T * St) (maxRetries : Z)
  (baseDelay : Q) : M St T :=
  retryLoop fn maxRetries baseDelay (Z.to_nat maxRetries) 0%Z.

End Retry.

(** Defaults of the signature: [maxRetries = 3], [baseDelay = 1000]. *)
Definition defaultMaxRetries : Z := 3.
Definition defaultBaseDelay : Q := 1000.

(** ** Input validation: [validateInput] and the two schemas *)

(** A zod issue: the path of the offending value and the message. *)
Record Issue : Type := mkIssue {
  path : list string;
  issueMessage : string
}.

(** Result of [schema.safeParse(data)]. *)
Inductive SafeParse (T : Type) : Type :=
| ParseSuccess (data : T)
| ParseFailure (issues : list Issue).
Arguments ParseFailure {T} issues.

(** [z.string().min(lo, msgLo).max(hi, msgHi)] at path [p]: every check
    of the chain is run and adds its own issue. *)
Definition checkMinMax (p : list string) (lo : nat) (msgLo : string)
  (hi : nat) (msgHi : string) (s : string) : list Issue :=
  (if (String.length s <? lo)%nat then [mkIssue p msgLo] else []) ++
  (if (hi <? String.length s)%nat then [mkIssue p msgHi] else []).

(** [z.string().max(hi, msg)] *)
Definition checkMax (p : list string) (hi : nat) (msg : string) (s : string)
  : list Issue :=
  if (hi <? String.length s)%nat then [mkIssue p msg] else [].

(** [\d] *)
Definition isDigit (c : ascii) : bool :=
  let n := nat_of_ascii c in (48 <=? n)%nat && (n <=? 57)%nat.

Definition isDash (c : ascii) : bool := Ascii.eqb c "-"%char.

(** [/^\d{4}-\d{2}-\d{2}$/.test(s)] *)
Definition matchesDate (s : string) : bool :=
  match list_ascii_of_string s with
  | [y1; y2; y3; y4; d1; m1; m2; d2; a1; a2] =>
      isDigit y1 && isDigit y2 && isDigit y3 && isDigit y4 && isDash d1 &&
      isDigit m1 && isDigit m2 && isDash d2 && isDigit a1 && isDigit a2
  | _ => false
  end.

(** [z.string().regex(/^\d{4}-\d{2}-\d{2}$/, msg)] *)
Definition checkDate (p : list string) (msg : string) (s : string)
  : list Issue :=
  if matchesDate s then [] else [mkIssue p msg].

(** [.optional()]: an absent value passes. *)
Definition optionalCheck (check : string -> list Issue) (v : option string)
  : list Issue :=
  match v with
  | Some s => check s
  | None => []
  end.

Definition todoStatuses : list string :=
  ["PENDING"; "IN_PROGRESS"; "COMPLETED"; "ARCHIVED"].

(** [z.enum([...], { errorMap })] *)
Definition checkStatus (p : list string) (s : string) : list Issue :=
  if existsb (String.eqb s) todoStatuses then []
  else [mkIssue p
          "Status must be one of: PENDING, IN_PROGRESS, COMPLETED, ARCHIVED"].

Definition titleTooShort : string := "Title must be at least 3 characters".
Definition titleTooLong : string := "Title must not exceed 200 characters".
Definition descriptionTooLong : string :=
  "Description must not exceed 1000 characters".
Definition badDate : string := "Must be YYYY-MM-DD format".

(** An object schema reports the issues of its keys in the order of its
    shape. *)
Definition CreateTodoInputSchema (data : CreateTodoInput.t)
  : SafeParse CreateTodoInput.t :=
  let issues :=
    checkMinMax ["title"] 3 titleTooShort 200 titleTooLong
                (CreateTodoInput.title data) ++
    optionalCheck (checkMax ["description"] 1000 descriptionTooLong)
                  (CreateTodoInput.description data) ++
    optionalCheck (checkDate ["dueDate"] badDate)
                  (CreateTodoInput.dueDate data) in
  match issues with
  | [] => ParseSuccess data
  | _ => ParseFailure issues
  end.

Definition UpdateTodoInputSchema (data : UpdateTodoInput.t)
  : SafeParse UpdateTodoInput.t :=
  let issues :=
    optionalCheck (checkMinMax ["title"] 3 titleTooShort 200 titleTooLong)
                  (UpdateTodoInput.title data) ++
    optionalCheck (checkMax ["description"] 1000 descriptionTooLong)
                  (UpdateTodoInput.description data) ++
    optionalCheck (checkStatus ["status"]) (UpdateTodoInput.status data) ++
    optionalCheck (checkDate ["dueDate"] badDate)
                  (UpdateTodoInput.dueDate data) in
  match issues with
  | [] => ParseSuccess data
  | _ => ParseFailure issues
  end.

(** The object returned on failure; [typename] is its [__typename]. *)
Module ValidationError.
Record t : Type := mk {
  typename : string;
  message : string;
  code : string;
  fields : list FieldError
}.
End ValidationError.

(** [validateInput(schema, data)]: the left summand is the object that
    has a [__typename]. *)
Definition validateInput {D T : Type} (schema : D -> SafeParse T) (data : D)
  : ValidationError.t + T :=
  match schema data with
  | ParseFailure issues =>
      let fields :=
        map (fun issue =>
               mkFieldError (String.concat "." (path issue))
                            (issueMessage issue)) issues in
      inl (ValidationError.mk "ValidationError" "Input validation failed"
                              "VALIDATION_ERROR" fields)
  | ParseSuccess data' => inr data'
  end.

(** ** Persistence collaborator *)

(** The statements the service sends through the breaker, each with its
    parameters [$1, $2, ...] in order. *)
Inductive Query : Type :=
(** [SELECT * FROM todos ORDER BY createdAt DESC] *)
| SelectAll
(** [SELECT * FROM todos WHERE status = $1 ORDER BY createdAt DESC] *)
| SelectByStatus (status : string)
(** [SELECT * FROM todos WHERE id = $1] *)
| SelectById (id : string)
(** [INSERT INTO todos (id, title, description, status, dueDate,
    createdAt, updatedAt) VALUES ($1, ..., $7) RETURNING *] *)
| InsertTodo (id title : string) (description : option string)
             (status : string) (dueDate : option string)
             (createdAt updatedAt : string)
(** [UPDATE todos SET title = COALESCE($2, title), description =
    COALESCE($3, description), status = COALESCE($4, status), dueDate =
    COALESCE($5, dueDate), updatedAt = $6 WHERE id = $1 RETURNING *] *)
| UpdateTodo (id : string) (title description status dueDate : option string)
             (updatedAt : string)
(** [UPDATE todos SET status = 'COMPLETED', completedAt = $2,
    updatedAt = $2 WHERE id = $1 RETURNING *] *)
| CompleteTodo (id now : string)
(** [DELETE FROM todos WHERE id = $1] *)
| DeleteTodo (id : string).

Definition isWrite (q : Query) : bool :=
  match q with
  | SelectAll | SelectByStatus _ | SelectById _ => false
  | _ => true
  end.

Record QueryResult : Type := mkQueryResult { rows : list Row.t }.

Definition hasId (id : string) (r : Row.t) : bool := String.eqb (Row.id r) id.

(** [ORDER BY createdAt DESC], keeping the table order among equals. *)
Fixpoint insertDesc (r : Row.t) (l : list Row.t) : list Row.t :=
  match l with
  | [] => [r]
  | x :: xs =>
      if String.leb (Row.createdAt x) (Row.createdAt r) then r :: l
      else x :: insertDesc r xs
  end.

Definition orderByCreatedAtDesc (l : list Row.t) : list Row.t :=
  fold_right insertDesc [] l.

(** [COALESCE($n, column)] on a column that may be null. *)
Definition coalesce (p : option string) (old : option string) : option string :=
  match p with
  | Some v => Some v
  | None => old
  end.

(** The same on a column that holds a value. *)
Definition coalesceTo (p : option string) (old : string) : string :=
  match p with
  | Some v => v
  | None => old
  end.

Definition setFields (title description status dueDate : option string)
  (updatedAt : string) (r : Row.t) : Row.t :=
  Row.mk (Row.id r) (coalesceTo title (Row.title r))
         (coalesce description (Row.description r))
         (coalesceTo status (Row.status r))
         (coalesce dueDate (Row.dueDate r))
         (Row.createdAt r) updatedAt (Row.completedAt r).

Definition setCompleted (now : string) (r : Row.t) : Row.t :=
  Row.mk (Row.id r) (Row.title r) (Row.description r) "COMPLETED"
         (Row.dueDate r) (Row.createdAt r) now (Some now).

(** What a statement does to the table when it is executed, and the rows
    it returns. *)
Definition execute (q : Query) (table : list Row.t)
  : QueryResult * list Row.t :=
  match q with
  | SelectAll => (mkQueryResult (orderByCreatedAtDesc table), table)
  | SelectByStatus s =>
      (mkQueryResult
         (orderByCreatedAtDesc
            (filter (fun r => String.eqb (Row.status r) s) table)), table)
  | SelectById id => (mkQueryResult (filter (hasId id) table), table)
  | InsertTodo id title description status dueDate createdAt updatedAt =>
      let r := Row.mk id title description status dueDate createdAt
                      updatedAt None in
      (mkQueryResult [r], table ++ [r])
  | UpdateTodo id title description status dueDate updatedAt =>
      let upd := setFields title description status dueDate updatedAt in
      (mkQueryResult (map upd (filter (hasId id) table)),
       map (fun r => if hasId id r then upd r else r) table)
  | CompleteTodo id now =>
      (mkQueryResult (map (setCompleted now) (filter (hasId id) table)),
       map (fun r => if hasId id r then setCompleted now r else r) table)
  | DeleteTodo id =>
      (mkQueryResult [], filter (fun r => negb (hasId id r)) table)
  end.

(** The database behind its circuit breaker.  The breaker and the
    connection pool are libraries outside the repository: whether a call
    of [dbBreaker.fire] is let through and succeeds, or is rejected
    (timeout, open circuit, connection or statement error), is read from
    [schedule], one entry per call, [None] meaning that the statement is
    executed; an exhausted schedule rejects nothing, and a rejected call
    leaves the table as it was.  [issued] records every statement handed
    to [fire]. *)
Record Db : Type := mkDb {
  table : list Row.t;
  schedule : list (option Thrown);
  issued : list Query
}.

(** [dbBreaker.fire(query, params)] *)
Definition dbBreaker_fire (q : Query) (db : Db) : Outcome QueryResult * Db :=
  match schedule db with
  | Some t :: rest => (Throw t, mkDb (table db) rest (issued db ++ [q]))
  | None :: rest =>
      let (res, table') := execute q (table db) in
      (Return res, mkDb table' rest (issued db ++ [q]))
  | [] =>
      let (res, table') := execute q (table db) in
      (Return res, mkDb table' [] (issued db ++ [q]))
  end.

(** ** Event publishing *)

(** [eventBus.publish(event)].  No handler is subscribed anywhere in the
    repository, so the handler list of every type is empty. *)
Definition eventBus_publish {St} (event : CloudEvent.t) : M St unit :=
  emit (EvPublish event) ;;
  logAt LevelInfo None "Event published"
        [("eventId", LvString (CloudEvent.id event));
         ("eventType", LvString (CloudEvent.type event));
         ("subject", LvString (CloudEvent.subject event));
         ("subscriberCount", LvInt 0)].

Definition makeEvent (id type time : string) (todo : Todo.t)
  (data : list (string * option string)) : CloudEvent.t :=
  CloudEvent.mk id "/todo-service" "1.0" type "application/json" time
                ("todo/" ++ Todo.id todo) data.

Definition publishTodoCreated {St} (todo : Todo.t) : M St unit :=
  let* id := uuidv4 in
  let* time := nowISO in
  eventBus_publish
    (makeEvent id "todos.todo.created.v1" time todo
       [("todoId", Some (Todo.id todo)); ("title", Some (Todo.title todo));
        ("status", Some (Todo.status todo));
        ("createdAt", Some (Todo.createdAt todo))]).

Definition publishTodoUpdated {St} (todo : Todo.t) : M St unit :=
  let* id := uuidv4 in
  let* time := nowISO in
  eventBus_publish
    (makeEvent id "todos.todo.updated.v1" time todo
       [("todoId", Some (Todo.id todo)); ("title", Some (Todo.title todo));
        ("status", Some (Todo.status todo));
        ("updatedAt", Some (Todo.updatedAt todo))]).

Definition publishTodoCompleted {St} (todo : Todo.t) : M St unit :=
  let* id := uuidv4 in
  let* time := nowISO in
  eventBus_publish
    (makeEvent id "todos.todo.completed.v1" time todo
       [("todoId", Some (Todo.id todo)); ("title", Some (Todo.title todo));
        ("completedAt", Todo.completedAt todo)]).

Definition publishTodoDeleted {St} (todo : Todo.t) : M St unit :=
  let* id := uuidv4 in
  let* time := nowISO in
  eventBus_publish
    (makeEvent id "todos.todo.deleted.v1" time todo
       [("todoId", Some (Todo.id todo)); ("title", Some (Todo.title todo))]).

(** ** The service: [TodoService] *)

Module TodoService.

(** [mapRow(row)] *)
Definition mapRow (row : Row.t) : Todo.t :=
  Todo.mk (Row.id row) (Row.title row) (Row.description row) (Row.status row)
          (Row.dueDate row) (Row.createdAt row) (Row.updatedAt row)
          (Row.completedAt row) (Row.description row).

(** [this.mapRow(result.rows[0])]: reading [row.id] of a missing first
    row throws. *)
Definition mapFirstRow (result : QueryResult) : M Db Todo.t :=
  match rows result with
  | row :: _ => ret (mapRow row)
  | [] => throw (ThrownError (typeError "id"))
  end.

(** [withRetry<QueryResult>(() => dbBreaker.fire(query, params))] with
    the default policy. *)
Definition query (q : Query) : M Db QueryResult :=
  withRetry (dbBreaker_fire q) defaultMaxRetries defaultBaseDelay.

(** A string is truthy when it is present and not empty. *)
Definition truthy (s : option string) : option string :=
  match s with
  | Some v => if String.eqb v "" then None else Some v
  | None => None
  end.

Definition findAll (status : option string) : M Db (list Todo.t) :=
  let q := match truthy status with
           | Some s => SelectByStatus s
           | None => SelectAll
           end in
  let* result := query q in
  ret (map mapRow (rows result)).

Definition findById (id : string) : M Db (option Todo.t) :=
  let* result := query (SelectById id) in
  match rows result with
  | [] => ret None
  | row :: _ => ret (Some (mapRow row))
  end.

Definition create (input : CreateTodoInput.t) : M Db Todo.t :=
  let* id := uuidv4 in
  let* now := nowISO in
  let* result :=
    query (InsertTodo id (CreateTodoInput.title input)
                      (CreateTodoInput.description input) "PENDING"
                      (CreateTodoInput.dueDate input) now now) in
  let* todo := mapFirstRow result in
  publishTodoCreated todo ;;
  ret todo.

Definition update (id : string) (input : UpdateTodoInput.t)
  : M Db (option Todo.t) :=
  let* existing := findById id in
  match existing with
  | None => ret None
  | Some _ =>
      let* now := nowISO in
      let* result :=
        query (UpdateTodo id (UpdateTodoInput.title input)
                          (UpdateTodoInput.description input)
                          (UpdateTodoInput.status input)
                          (UpdateTodoInput.dueDate input) now) in
      let* todo := mapFirstRow result in
      publishTodoUpdated todo ;;
      ret (Some todo)
  end.

Definition delete (id : string) : M Db (option Todo.t) :=
  let* existing := findById id in
  match existing with
  | None => ret None
  | Some todo =>
      query (DeleteTodo id) ;;
      publishTodoDeleted todo ;;
      ret (Some todo)
  end.

Definition complete (id : string) : M Db (option Todo.t) :=
  let* existing := findById id in
  match existing with
  | None => ret None
  | Some _ =>
      let* now := nowISO in
      let* result := query (CompleteTodo id now) in
      let* todo := mapFirstRow result in
      publishTodoCompleted todo ;;
      ret (Some todo)
  end.

End TodoService.

(** ** The resolvers *)

(** What a resolver hands back to the API layer. *)
Inductive Result : Type :=
| ResTodos (todos : list Todo.t)
| ResNull
| ResTodo (todo : Todo.t)
| ResValidationError (e : ValidationError.t)
| ResCreateTodoSuccess (todo : Todo.t)
| ResTodoNotFoundError (message code todoId : string).

Definition todoNotFound (id : string) : Result :=
  ResTodoNotFoundError "Todo not found" "TODO_NOT_FOUND" id.

Definition logOpt (s : option string) : LogValue :=
  match s with
  | Some v => LvString v
  | None => LvUndefined
  end.

(** The [extensions] every resolver attaches to its [GraphQLError]. *)
Definition internalError (msg originalError : string) : Thrown :=
  ThrownError (newGraphQLError msg [("code", "INTERNAL_ERROR");
                                    ("originalError", originalError)]).

(** The [stack] entry of a log call; the stack of [error] is read after
    its message, so [error] is an object here. *)
Definition stackOf (error : Thrown) : LogValue :=
  match error with
  | ThrownNullish => LvUndefined
  | ThrownError e => LvStack e
  end.

Module todoResolvers.

Definition todos (status : option string) (correlationId : string)
  : M Db Result :=
  let log := Some correlationId in
  logAt LevelInfo log "Fetching todos" [("status", logOpt status)] ;;
  tryCatch
    (let* found := TodoService.findAll status in
     logAt LevelInfo log "Todos fetched"
           [("count", LvInt (Z.of_nat (List.length found)))] ;;
     ret (ResTodos found))
    (fun error =>
       let* m := messageOf error in
       logAt LevelError log "Failed to fetch todos"
             [("error", LvString m); ("stack", stackOf error)] ;;
       throw (internalError "Failed to fetch todos" m)).

Definition todo (id : string) (correlationId : string) : M Db Result :=
  let log := Some correlationId in
  logAt LevelInfo log "Fetching todo" [("todoId", LvString id)] ;;
  tryCatch
    (let* found := TodoService.findById id in
     match found with
     | None =>
         logAt LevelWarn log "Todo not found" [("todoId", LvString id)] ;;
         ret ResNull
     | Some t => ret (ResTodo t)
     end)
    (fun error =>
       let* m := messageOf error in
       logAt LevelError log "Failed to fetch todo"
             [("todoId", LvString id); ("error", LvString m)] ;;
       throw (internalError "Failed to fetch todo" m)).

Definition createTodo (input : CreateTodoInput.t) (correlationId : string)
  : M Db Result :=
  let log := Some correlationId in
  logAt LevelInfo log "Creating todo" [("input", LvCreateInput input)] ;;
  match validateInput CreateTodoInputSchema input with
  | inl validated =>
      logAt LevelWarn log "Validation failed"
            [("errors", LvFields (ValidationError.fields validated))] ;;
      ret (ResValidationError validated)
  | inr validated =>
      tryCatch
        (let* created := TodoService.create validated in
         logAt LevelInfo log "Todo created"
               [("todoId", LvString (Todo.id created))] ;;
         ret (ResCreateTodoSuccess created))
        (fun error =>
           let* m := messageOf error in
           logAt LevelError log "Failed to create todo"
                 [("error", LvString m); ("stack", stackOf error)] ;;
           throw (internalError "Failed to create todo" m))
  end.

Definition updateTodo (id : string) (input : UpdateTodoInput.t)
  (correlationId : string) : M Db Result :=
  let log := Some correlationId in
  logAt LevelInfo log "Updating todo"
        [("todoId", LvString id); ("input", LvUpdateInput input)] ;;
  match validateInput UpdateTodoInputSchema input with
  | inl validated => ret (ResValidationError validated)
  | inr validated =>
      tryCatch
        (let* updated := TodoService.update id validated in
         match updated with
         | None => ret (todoNotFound id)
         | Some t =>
             logAt LevelInfo log "Todo updated" [("todoId", LvString id)] ;;
             ret (ResTodo t)
         end)
        (fun error =>
           let* m := messageOf error in
           logAt LevelError log "Failed to update todo"
                 [("todoId", LvString id); ("error", LvString m)] ;;
           throw (internalError "Failed to update todo" m))
  end.

Definition deleteTodo (id : string) (correlationId : string) : M Db Result :=
  let log := Some correlationId in
  logAt LevelInfo log "Deleting todo" [("todoId", LvString id)] ;;
  tryCatch
    (let* deleted := TodoService.delete id in
     match deleted with
     | None => ret (todoNotFound id)
     | Some t =>
         logAt LevelInfo log "Todo deleted" [("todoId", LvString id)] ;;
         ret (ResTodo t)
     end)
    (fun error =>
       let* m := messageOf error in
       logAt LevelError log "Failed to delete todo"
             [("todoId", LvString id); ("error", LvString m)] ;;
       throw (internalError "Failed to delete todo" m)).

Definition completeTodo (id : string) (correlationId : string)
  : M Db Result :=
  let log := Some correlationId in
  logAt LevelInfo log "Completing todo" [("todoId", LvString id)] ;;
  tryCatch
    (let* completed := TodoService.complete id in
     match completed with
     | None => ret (todoNotFound id)
     | Some t =>
         logAt LevelInfo log "Todo completed" [("todoId", LvString id)] ;;
         ret (ResTodo t)
     end)
    (fun error =>
       let* m := messageOf error in
       logAt LevelError log "Failed to complete todo"
             [("todoId", LvString id); ("error", LvString m)] ;;
       throw (internalError "Failed to complete todo" m)).

End todoResolvers.

(** ** Sample worlds *)

Definition sampleWorld {St} (s : St) (jitter : Q) : World St :=
  mkWorld s (fun _ => jitter)
          0 (fun n => if (n =? 0)%nat then "2025-11-14T10:00:00.000Z"
                      else "2025-11-14T10:00:01.000Z")
          0 (fun n => if (n =? 0)%nat then "u0" else "u1") 0 [].

Definition timeoutError : Thrown :=
  ThrownError (JsError.mk (Some "ETIMEDOUT") "Timed out after 5000ms" []).

Definition syntaxError : Thrown :=
  ThrownError (JsError.mk (Some "42601") "syntax error at or near FROM" []).

Definition sampleRow : Row.t :=
  Row.mk "t1" "Write report" (Some "quarterly") "PENDING" None
         "2025-11-13T09:00:00.000Z" "2025-11-13T09:00:00.000Z" None.

Definition sampleDb (faults : list (option Thrown)) : Db :=
  mkDb [sampleRow] faults [].

(** A world whose next [n] calls of the breaker time out. *)
Definition timeoutsWorld (n : nat) : World Db :=
  sampleWorld (sampleDb (repeat (Some timeoutError) n)) (1 # 2).

(** A world whose next call of the breaker fails on the statement. *)
Definition brokenStatementWorld : World Db :=
  sampleWorld (sampleDb [Some syntaxError]) (1 # 2).

(** A world in which every call is let through. *)
Definition calmWorld : World Db := sampleWorld (sampleDb []) (1 # 2).

(** ** Observations on traces and environments *)

(** Number of invocations of the wrapped operation. *)
Fixpoint attempts (tr : list Event) : nat :=
  match tr with
  | [] => 0
  | EvAttempt :: tr' => S (attempts tr')
  | _ :: tr' => attempts tr'
  end.

(** The delays handed to [setTimeout], in order. *)
Fixpoint sleeps (tr : list Event) : list Q :=
  match tr with
  | [] => []
  | EvSleep d :: tr' => d :: sleeps tr'
  | _ :: tr' => sleeps tr'
  end.

(** The events handed to the event bus, in order. *)
Fixpoint published (tr : list Event) : list CloudEvent.t :=
  match tr with
  | [] => []
  | EvPublish ev :: tr' => ev :: published tr'
  | _ :: tr' => published tr'
  end.

(** The log entries, in order. *)
Fixpoint logged (tr : list Event) : list Event :=
  match tr with
  | [] => []
  | EvLog l c m meta :: tr' => EvLog l c m meta :: logged tr'
  | _ :: tr' => logged tr'
  end.

(** [fn] fails [n] times in a row with a retryable error and then
    succeeds, starting from state [s]. *)
Fixpoint failsThenSucceeds {St T} (fn : St -> Outcome T * St) (n : nat)
  (s : St) : bool :=
  match n, fn s with
  | O, (Return _, _) => true
  | S k, (Throw (ThrownError e), s') =>
      isRetryableCode (JsError.code e) && failsThenSucceeds fn k s'
  | _, _ => false
  end.


(** The same for a whole run of delays, the first one computed in
    iteration [attempt]. *)
Fixpoint delaysFrom (baseDelay : Q) (attempt : Z) (ds : list Q) : Prop :=
  match ds with
  | [] => True
  | d :: ds' =>
      (baseDelay * Qpower 2 attempt <= d /\
       d < baseDelay * Qpower 2 attempt + 1000)%Q /\
      delaysFrom baseDelay (attempt + 1) ds'
  end.

(** The delay computed in iteration [attempt] from the value [r] of
    [Math.random()]: [delay + jitter]. *)
Definition backoff (baseDelay : Q) (attempt : Z) (r : Q) : Q :=
  (baseDelay * Qpower 2 attempt + r * 1000)%Q.

Definition isTimeout (t : Thrown) : bool :=
  match t with
  | ThrownError e =>
      match JsError.code e with
      | Some c => String.eqb c "ETIMEDOUT"
      | None => false
      end
  | ThrownNullish => false
  end.

(** The next [n] calls of [dbBreaker.fire] are let through. *)
Fixpoint passes (n : nat) (sched : list (option Thrown)) : bool :=
  match n, sched with
  | O, _ => true
  | _, [] => true
  | S k, None :: rest => passes k rest
  | S _, Some _ :: _ => false
  end.

(** The first row with the given id. *)
Definition firstWithId (id : string) (tbl : list Row.t) : option Row.t :=
  match filter (hasId id) tbl with
  | r :: _ => Some r
  | [] => None
  end.

Definition aliased (t : Todo.t) : Prop := Todo.notes t = Todo.description t.

Definition optionToList {A} (o : option A) : list A :=
  match o with
  | Some a => [a]
  | None => []
  end.

(** A call of one of the six operations of the service. *)
Inductive Operation : Type :=
| OpFindAll (status : option string)
| OpFindById (id : string)
| OpCreate (input : CreateTodoInput.t)
| OpUpdate (id : string) (input : UpdateTodoInput.t)
| OpDelete (id : string)
| OpComplete (id : string).

(** Performs the call and gives the Todos it returns. *)
Definition perform (op : Operation) : M Db (list Todo.t) :=
  match op with
  | OpFindAll status => TodoService.findAll status
  | OpFindById id => let* r := TodoService.findById id in ret (optionToList r)
  | OpCreate input => let* r := TodoService.create input in ret [r]
  | OpUpdate id input =>
      let* r := TodoService.update id input in ret (optionToList r)
  | OpDelete id => let* r := TodoService.delete id in ret (optionToList r)
  | OpComplete id => let* r := TodoService.complete id in ret (optionToList r)
  end.

(** What one run of [withRetry(() => dbBreaker.fire(q))] from world [w]
    can be, for any schedule: [k] attempts, each handing [q] to the
    breaker once and consuming one entry of the schedule; clock and uuid
    source untouched; nothing published; and either an [Error] object is
    thrown with the table as it was, or the statement was executed once
    and its rows are returned. *)
Definition queryRun (q : Query) (w : World Db) (o : Outcome QueryResult)
  (w1 : World Db) : Prop :=
  exists (k : nat) (dt : list Event),
    trace w1 = trace w ++ dt /\
    attempts dt = k /\
    published dt = [] /\
    issued (env w1) = issued (env w) ++ repeat q k /\
    schedule (env w1) = skipn k (schedule (env w)) /\
    clock w1 = clock w /\ clockReads w1 = clockReads w /\
    uuid w1 = uuid w /\ uuidCalls w1 = uuidCalls w /\
    match o with
    | Throw t =>
        (exists e, t = ThrownError e) /\ table (env w1) = table (env w)
    | Return res =>
        (1 <= k)%nat /\
        res = fst (execute q (table (env w))) /\
        table (env w1) = snd (execute q (table (env w)))
    end.

Definition isValidCreate (input : CreateTodoInput.t) : bool :=
  match CreateTodoInputSchema input with
  | ParseSuccess _ => true
  | ParseFailure _ => false
  end.

Definition isValidUpdate (input : UpdateTodoInput.t) : bool :=
  match UpdateTodoInputSchema input with
  | ParseSuccess _ => true
  | ParseFailure _ => false
  end.

(** The resolver in front of each operation of the service. *)
Definition resolve (op : Operation) (correlationId : string) : M Db Result :=
  match op with
  | OpFindAll status => todoResolvers.todos status correlationId
  | OpFindById id => todoResolvers.todo id correlationId
  | OpCreate input => todoResolvers.createTodo input correlationId
  | OpUpdate id input => todoResolvers.updateTodo id input correlationId
  | OpDelete id => todoResolvers.deleteTodo id correlationId
  | OpComplete id => todoResolvers.completeTodo id correlationId
  end.


(** The properties of a thrown error are a coarse code and a correlation
    id, and nothing else. *)
Definition onlyCodeAndCorrelationId (g : JsError.t) : bool :=
  forallb (fun kv => String.eqb (fst kv) "code"
                     || String.eqb (fst kv) "correlationId")
          (JsError.extensions g).

(** ** Further observations *)

(** The outcome of the [(n+1)]-th invocation of [fn] in a row, and the
    state it leaves. *)
Fixpoint nthOutcome {St T} (fn : St -> Outcome T * St) (n : nat) (s : St)
  : Outcome T * St :=
  match n with
  | O => fn s
  | S k => nthOutcome fn k (snd (fn s))
  end.


(** The attempt numbers of the 'Retry attempt' warnings, in order. *)
Fixpoint warnedAttempts (tr : list Event) : list Z :=
  match tr with
  | [] => []
  | EvLog LevelWarn None msg (("attempt", LvInt n) :: _) :: tr' =>
      if String.eqb msg "Retry attempt" then n :: warnedAttempts tr'
      else warnedAttempts tr'
  | _ :: tr' => warnedAttempts tr'
  end.

(** [attempt + 1, attempt + 2, ...], [n] numbers. *)
Fixpoint countFrom (attempt : Z) (n : nat) : list Z :=
  match n with
  | O => []
  | S k => (attempt + 1)%Z :: countFrom (attempt + 1) k
  end.





(** The event type an operation publishes, if it publishes. *)
Definition eventTypeOf (op : Operation) : option string :=
  match op with
  | OpCreate _ => Some "todos.todo.created.v1"
  | OpUpdate _ _ => Some "todos.todo.updated.v1"
  | OpDelete _ => Some "todos.todo.deleted.v1"
  | OpComplete _ => Some "todos.todo.completed.v1"
  | OpFindAll _ | OpFindById _ => None
  end.

(** The envelope every publisher writes, for the Todo [t]: fixed source,
    version and content type, the subject and the first data entry naming
    the Todo. *)
Definition envelopeFor (t : Todo.t) (ev : CloudEvent.t) : Prop :=
  CloudEvent.source ev = "/todo-service" /\
  CloudEvent.specversion ev = "1.0" /\
  CloudEvent.datacontenttype ev = "application/json" /\
  CloudEvent.subject ev = ("todo/" ++ Todo.id t)%string /\
  hd_error (CloudEvent.data ev) = Some ("todoId", Some (Todo.id t)) /\
  nth_error (CloudEvent.data ev) 1 = Some ("title", Some (Todo.title t)).

(** The id an operation is aimed at. *)
Definition targetOf (op : Operation) : option string :=
  match op with
  | OpUpdate id _ | OpDelete id | OpComplete id => Some id
  | _ => None
  end.

(** The most statements an operation can hand to the breaker: three
    attempts for each of its wrapped calls. *)
Definition maxStatements (op : Operation) : nat :=
  match op with
  | OpFindAll _ | OpFindById _ | OpCreate _ => 3
  | OpUpdate _ _ | OpDelete _ | OpComplete _ => 6
  end.

(** The bounds of the schemas, key by key. *)
Definition titleOk (s : string) : bool :=
  (3 <=? String.length s)%nat && (String.length s <=? 200)%nat.

Definition descriptionOk (s : string) : bool :=
  (String.length s <=? 1000)%nat.

Definition statusOk (s : string) : bool :=
  existsb (String.eqb s) todoStatuses.

Definition absentOr (ok : string -> bool) (v : option string) : bool :=
  match v with
  | Some s => ok s
  | None => true
  end.

Definition keyUnless (ok : bool) (key : string) : list string :=
  if ok then [] else [key].

(** The keys of a create input that break a bound, in schema order. *)
Definition invalidKeysCreate (input : CreateTodoInput.t) : list string :=
  keyUnless (titleOk (CreateTodoInput.title input)) "title" ++
  keyUnless (absentOr descriptionOk (CreateTodoInput.description input))
            "description" ++
  keyUnless (absentOr matchesDate (CreateTodoInput.dueDate input)) "dueDate".

(** The same for an update input. *)
Definition invalidKeysUpdate (input : UpdateTodoInput.t) : list string :=
  keyUnless (absentOr titleOk (UpdateTodoInput.title input)) "title" ++
  keyUnless (absentOr descriptionOk (UpdateTodoInput.description input))
            "description" ++
  keyUnless (absentOr statusOk (UpdateTodoInput.status input)) "status" ++
  keyUnless (absentOr matchesDate (UpdateTodoInput.dueDate input)) "dueDate".

(** The fixed message of the technical error of each resolver. *)
Definition failureMessage (op : Operation) : string :=
  match op with
  | OpFindAll _ => "Failed to fetch todos"
  | OpFindById _ => "Failed to fetch todo"
  | OpCreate _ => "Failed to create todo"
  | OpUpdate _ _ => "Failed to update todo"
  | OpDelete _ => "Failed to delete todo"
  | OpComplete _ => "Failed to complete todo"
  end.

(** ** The event bus with its subscribers *)

(** [class EventBus]: [handlers] is a [Map] from event type to the array
    of its handlers, kept here as the list of its entries in insertion
    order.  A handler receives the event and may fail. *)
Module EventBus.
Section Bus.
Context {St : Type}.

Definition Handler : Type := CloudEvent.t -> M St unit.

Definition t : Type := list (string * list Handler).

(** [handlers.get(eventType)] *)
Fixpoint get (m : t) (eventType : string) : option (list Handler) :=
  match m with
  | [] => None
  | (k, hs) :: m' => if String.eqb k eventType then Some hs else get m' eventType
  end.

(** [handlers.has(eventType)] *)
Definition has (m : t) (eventType : string) : bool :=
  match get m eventType with
  | Some _ => true
  | None => false
  end.

(** [handlers.set(eventType, hs)]: replaces the entry of an existing key
    in place, appends a new key. *)
Fixpoint set (m : t) (eventType : string) (hs : list Handler) : t :=
  match m with
  | [] => [(eventType, hs)]
  | (k, old) :: m' =>
      if String.eqb k eventType then (k, hs) :: m'
      else (k, old) :: set m' eventType hs
  end.

(** [handlers.get(eventType)!.push(handler)]: the array of the entry
    grows in place. *)
Fixpoint push (m : t) (eventType : string) (handler : Handler) : t :=
  match m with
  | [] => []
  | (k, hs) :: m' =>
      if String.eqb k eventType then (k, hs ++ [handler]) :: m'
      else (k, hs) :: push m' eventType handler
  end.

Definition subscribe (m : t) (eventType : string) (handler : Handler) : t :=
  let m1 := if negb (has m eventType) then set m eventType [] else m in
  push m1 eventType handler.

(** One turn of the loop of [publish]: a failing handler is logged and
    the loop goes on. *)
Definition runHandler (event : CloudEvent.t) (handler : Handler) : M St unit :=
  tryCatch (handler event)
    (fun error =>
       let* msg := messageOf error in
       logAt LevelError None "Event handler failed"
             [("eventId", LvString (CloudEvent.id event));
              ("eventType", LvString (CloudEvent.type event));
              ("error", LvString msg)]).

Fixpoint forEach (hs : list Handler) (event : CloudEvent.t) : M St unit :=
  match hs with
  | [] => ret tt
  | handler :: hs' => runHandler event handler ;; forEach hs' event
  end.

(** [handlers.get(event.type) || []] *)
Definition handlersFor (m : t) (event : CloudEvent.t) : list Handler :=
  match get m (CloudEvent.type event) with
  | Some hs => hs
  | None => []
  end.

Definition publish (m : t) (event : CloudEvent.t) : M St unit :=
  let handlers := handlersFor m event in
  emit (EvPublish event) ;;
  logAt LevelInfo None "Event published"
        [("eventId", LvString (CloudEvent.id event));
         ("eventType", LvString (CloudEvent.type event));
         ("subject", LvString (CloudEvent.subject event));
         ("subscriberCount", LvInt (Z.of_nat (List.length handlers)))] ;;
  forEach handlers event.

End Bus.
End EventBus.

(** A handler that only works on the environment. *)
Definition envHandler {St} (f : CloudEvent.t -> St -> Outcome unit * St)
  : EventBus.Handler :=
  fun event => onEnv (f event).

(** The environment after the handlers [fs] have run in order on it. *)
Definition afterHandlers {St} (fs : list (CloudEvent.t -> St -> Outcome unit * St))
  (event : CloudEvent.t) (s : St) : St :=
  fold_left (fun s f => snd (f event s)) fs s.

(** The messages of the 'Event handler failed' entries, in order. *)
Fixpoint handlerFailures (tr : list Event) : list string :=
  match tr with
  | [] => []
  | EvLog LevelError None msg [_; _; (_, LvString m)] :: tr' =>
      if String.eqb msg "Event handler failed" then m :: handlerFailures tr'
      else handlerFailures tr'
  | _ :: tr' => handlerFailures tr'
  end.

(** The messages of the failures of the handlers [fs] run in order. *)
Fixpoint failuresOf {St} (fs : list (CloudEvent.t -> St -> Outcome unit * St))
  (event : CloudEvent.t) (s : St) : list string :=
  match fs with
  | [] => []
  | f :: fs' =>
      match f event s with
      | (Throw (ThrownError e), s') =>
          JsError.message e :: failuresOf fs' event s'
      | (_, s') => failuresOf fs' event s'
      end
  end.

(** ** Health probes ([utils/health.ts]) *)

Module Health.

(** [interface HealthCheck] *)
Record HealthCheck : Type := mkHealthCheck {
  status : string;
  responseTime : option Z;
  error : option string
}.

(** The JSON bodies the two probes send. *)
Inductive Body : Type :=
| LivenessBody (status timestamp : string) (uptime : Q)
| ReadinessBody (status timestamp : string) (database : HealthCheck).

(** [res.status(code).json(body)] *)
Record Response : Type := mkResponse {
  statusCode : Z;
  body : Body
}.

(** What the probes talk to: the connection pool, used directly and not
    through the breaker ([pool] holds the outcome of its next calls,
    [None] or an exhausted list meaning success; [queries] records the
    statements sent), [Date.now()], [process.uptime()], and the
    responses sent so far. *)
Record Env : Type := mkEnv {
  pool : list (option Thrown);
  queries : list string;
  dateNow : nat -> Z;
  dateNowReads : nat;
  uptime : Q;
  sent : list Response
}.

(** [Date.now()] *)
Definition Date_now : M Env Z :=
  onEnv (fun e =>
           (Return (dateNow e (dateNowReads e)),
            mkEnv (pool e) (queries e) (dateNow e) (S (dateNowReads e))
                  (uptime e) (sent e))).

(** [process.uptime()] *)
Definition process_uptime : M Env Q :=
  onEnv (fun e => (Return (uptime e), e)).

(** [await db.query(sql)] *)
Definition db_query (sql : string) : M Env unit :=
  onEnv (fun e =>
           match pool e with
           | Some t :: rest =>
               (Throw t, mkEnv rest (queries e ++ [sql]) (dateNow e)
                               (dateNowReads e) (uptime e) (sent e))
           | None :: rest =>
               (Return tt, mkEnv rest (queries e ++ [sql]) (dateNow e)
                                 (dateNowReads e) (uptime e) (sent e))
           | [] =>
               (Return tt, mkEnv [] (queries e ++ [sql]) (dateNow e)
                                 (dateNowReads e) (uptime e) (sent e))
           end).

Definition send (code : Z) (b : Body) : M Env unit :=
  onEnv (fun e =>
           (Return tt,
            mkEnv (pool e) (queries e) (dateNow e) (dateNowReads e)
                  (uptime e) (sent e ++ [mkResponse code b]))).

Definition livenessCheck : M Env unit :=
  let* timestamp := nowISO in
  let* up := process_uptime in
  send 200 (LivenessBody "alive" timestamp up).

Definition checkDatabase : M Env HealthCheck :=
  let* start := Date_now in
  tryCatch
    (db_query "SELECT 1" ;;
     let* finish := Date_now in
     ret (mkHealthCheck "ok" (Some (finish - start)%Z) None))
    (fun error =>
       let* logged := messageOf error in
       logAt LevelError None "Database health check failed"
             [("error", LvString logged)] ;;
       let* msg := messageOf error in
       ret (mkHealthCheck "fail" None (Some msg))).

Definition readinessCheck : M Env unit :=
  let* database := checkDatabase in
  let isReady := forallb (fun check => String.eqb (status check) "ok")
                         [database] in
  if isReady then
    let* timestamp := nowISO in
    send 200 (ReadinessBody "ready" timestamp database)
  else
    let* timestamp := nowISO in
    send 503 (ReadinessBody "not ready" timestamp database).

(** The outcome of the next call of the pool. *)
Definition nextOutcome (e : Env) : option Thrown :=
  match pool e with
  | Some t :: _ => Some t
  | _ => None
  end.

End Health.

(** ** The renaming helpers of the auto-fix script *)

Module AutoFix.

(** [[a-z]] *)
Definition isLower (c : ascii) : bool :=
  let n := nat_of_ascii c in (97 <=? n)%nat && (n <=? 122)%nat.

(** [letter.toUpperCase()] on a character of the names the script
    matches ([[a-z_]]): a lower-case letter moves to its capital, any
    other character of that alphabet stays. *)
Definition toUpperCase (c : ascii) : ascii :=
  if isLower c then ascii_of_nat (nat_of_ascii c - 32) else c.

Definition isUnderscore (c : ascii) : bool := Ascii.eqb c "_"%char.

(** [name.replace(/_([a-z])/g, (_, letter) => letter.toUpperCase())]:
    scanning from the left, an underscore followed by a lower-case letter
    is replaced, both together, by the capital; the scan goes on after
    the pair. *)
Fixpoint snakeToCamel (s : string) : string :=
  match s with
  | EmptyString => EmptyString
  | String a rest =>
      match rest with
      | String c rest' =>
          if isUnderscore a && isLower c
          then String (toUpperCase c) (snakeToCamel rest')
          else String a (snakeToCamel rest)
      | EmptyString => String a EmptyString
      end
  end.

(** [name.split('_')]: the pieces between the underscores, empty pieces
    included; [acc] is the piece being read, reversed. *)
Fixpoint splitUnderscore (acc : string) (s : string) : list string :=
  match s with
  | EmptyString => [acc]
  | String c rest =>
      if isUnderscore c then acc :: splitUnderscore EmptyString rest
      else splitUnderscore (acc ++ String c EmptyString) rest
  end.

(** [word.charAt(0).toUpperCase() + word.slice(1)] *)
Definition capitalize (word : string) : string :=
  match word with
  | EmptyString => EmptyString
  | String c rest => String (toUpperCase c) rest
  end.

(** [name.split('_').map(capitalize).join('')] *)
Definition pascalCase (name : string) : string :=
  String.concat "" (map capitalize (splitUnderscore EmptyString name)).

(** The string has an underscore directly followed by a lower-case
    letter: a place where [snakeToCamel] would still rewrite. *)
Fixpoint hasSnakeJoint (s : string) : bool :=
  match s with
  | EmptyString => false
  | String a rest =>
      match rest with
      | String c _ => (isUnderscore a && isLower c) || hasSnakeJoint rest
      | EmptyString => false
      end
  end.

(** [[A-Z]] *)
Definition isUpper (c : ascii) : bool :=
  let n := nat_of_ascii c in (65 <=? n)%nat && (n <=? 90)%nat.

(** [[a-z][a-z_]*]: the names the enum rule of the script matches. *)
Definition isName (s : string) : bool :=
  match s with
  | EmptyString => false
  | String c rest =>
      isLower c &&
      forallb (fun x => isLower x || isUnderscore x) (list_ascii_of_string rest)
  end.

Fixpoint hasUnderscore (s : string) : bool :=
  match s with
  | EmptyString => false
  | String c rest => isUnderscore c || hasUnderscore rest
  end.

End AutoFix.


(** ** Further sample values *)

Definition sampleEvent : CloudEvent.t :=
  CloudEvent.mk "e1" "/todo-service" "1.0" "todos.todo.created.v1"
                "application/json" "2025-11-14T10:00:00.000Z" "todo/t1"
                [("todoId", Some "t1")].

(** A subscriber that fails after counting itself, and one that works. *)
Definition failingSubscriber (_ : CloudEvent.t) (n : nat) : Outcome unit * nat :=
  (Throw (ThrownError (newError "mail server down")), S n).

Definition countingSubscriber (_ : CloudEvent.t) (n : nat) : Outcome unit * nat :=
  (Return tt, (n + 10)%nat).

Definition sampleBus : @EventBus.t nat :=
  EventBus.subscribe
    (EventBus.subscribe [] "todos.todo.created.v1" (envHandler failingSubscriber))
    "todos.todo.created.v1" (envHandler countingSubscriber).

(** A subscriber that rejects with [undefined]. *)
Definition nullishSubscriber : @EventBus.Handler nat :=
  fun _ w => (Throw ThrownNullish, w).

Definition busWorld : World nat := sampleWorld 0%nat (1 # 2).

Definition healthWorld (outcomes : list (option Thrown)) : World Health.Env :=
  sampleWorld (Health.mkEnv outcomes [] (fun n => (1000 + 7 * Z.of_nat n)%Z) 0
                            (42 # 1) [])
              (1 # 2).

(** * Properties *)

(** ** Traces *)


Lemma sleeps_app (a b : list Event) : sleeps (a ++ b) = sleeps a ++ sleeps b.
Proof.
  induction a as [|e a IH]; simpl; [reflexivity|].
  destruct e; simpl; rewrite IH; reflexivity.
Qed.

Lemma published_app (a b : list Event) :
  published (a ++ b) = published a ++ published b.
Proof.
  induction a as [|e a IH]; simpl; [reflexivity|].
  destruct e; simpl; rewrite IH; reflexivity.
Qed.


(** ** The retry loop *)

Section RetryFacts.
Context {St T : Type}.
Variable fn : St -> Outcome T * St.
Variable maxRetries : Z.
Variable baseDelay : Q.

(** With no iteration left the loop falls through to the final throw,
    without touching the world. *)
Lemma retryLoop_done (attempt : Z) (w : World St) :
  retryLoop fn maxRetries baseDelay 0 attempt w =
  (Throw (ThrownError (newError "Max retries reached")), w).
Proof. reflexivity. Qed.

(** A successful attempt ends the call. *)
Lemma retryLoop_success (remaining : nat) (attempt : Z) (w : World St) v s :
  fn (env w) = (Return v, s) ->
  retryLoop fn maxRetries baseDelay (S remaining) attempt w =
  (Return v,
   mkWorld s (random w) (randomCalls w) (clock w) (clockReads w) (uuid w)
           (uuidCalls w) (trace w ++ [EvAttempt])).
Proof.
  intros E. simpl. unfold tryCatch, attemptOnce, bind, emit, onEnv. simpl.
  rewrite E. reflexivity.
Qed.

(** A failure that is not on the allow-list, or that happens in the last
    iteration, is rethrown at once. *)
Lemma retryLoop_rethrow (remaining : nat) (attempt : Z) (w : World St) e s :
  fn (env w) = (Throw (ThrownError e), s) ->
  (attempt =? maxRetries - 1)%Z || negb (isRetryableCode (JsError.code e))
    = true ->
  retryLoop fn maxRetries baseDelay (S remaining) attempt w =
  (Throw (ThrownError e),
   mkWorld s (random w) (randomCalls w) (clock w) (clockReads w) (uuid w)
           (uuidCalls w) (trace w ++ [EvAttempt])).
Proof.
  intros E H. simpl. unfold tryCatch, attemptOnce, bind, emit, onEnv. simpl.
  rewrite E. simpl. unfold ret. rewrite H. reflexivity.
Qed.

(** A retryable failure before the last iteration: one warning, one
    timer, and the loop goes on. *)
Lemma retryLoop_retry (remaining : nat) (attempt : Z) (w : World St) e s :
  fn (env w) = (Throw (ThrownError e), s) ->
  (attempt =? maxRetries - 1)%Z = false ->
  isRetryableCode (JsError.code e) = true ->
  retryLoop fn maxRetries baseDelay (S remaining) attempt w =
  retryLoop fn maxRetries baseDelay remaining (attempt + 1)
    (mkWorld s (random w) (S (randomCalls w)) (clock w) (clockReads w)
       (uuid w) (uuidCalls w)
       (trace w ++
        [EvAttempt;
         EvLog LevelWarn None "Retry attempt"
           [("attempt", LvInt (attempt + 1)); ("maxRetries", LvInt maxRetries);
            ("delay", LvNumber (backoff baseDelay attempt (random w (randomCalls w))));
            ("error", LvString (JsError.message e))];
         EvSleep (backoff baseDelay attempt (random w (randomCalls w)))])).
Proof.
  intros E Hlast Hretry.
  cbn [retryLoop]. unfold tryCatch at 1. unfold attemptOnce, bind at 1.
  unfold emit, onEnv. cbn [env trace random randomCalls clock clockReads uuid
                          uuidCalls]. rewrite E.
  cbn [codeOf]. unfold bind at 1. unfold ret at 1. rewrite Hlast, Hretry.
  cbn [orb negb]. unfold bind at 1. unfold Math_random.
  cbn [env trace random randomCalls clock clockReads uuid uuidCalls messageOf].
  unfold bind at 1. unfold ret at 1. unfold bind at 1. unfold logAt, emit.
  cbn [env trace random randomCalls clock clockReads uuid uuidCalls].
  unfold bind at 1. unfold sleep, emit.
  cbn [env trace random randomCalls clock clockReads uuid uuidCalls].
  rewrite <- !app_assoc. reflexivity.
Qed.

End RetryFacts.

Section RetryClaims.
Context {St T : Type}.
Variable fn : St -> Outcome T * St.


(** C1 (what the code does at [maxRetries = 0]): the loop body never
    runs, so the wrapped operation is not invoked at all; the call throws
    a new error, 'Max retries reached', whatever the operation would have
    done, and leaves the world as it was (no attempt, no timer). *)
Theorem withRetry_zero_never_attempts :
  forall (baseDelay : Q) (w : World St),
    withRetry fn 0 baseDelay w =
    (Throw (ThrownError (newError "Max retries reached")), w).
Proof. intros. reflexivity. Qed.

(** With [maxRetries = 1] the loop runs once: the operation is invoked
    once and its failure, retryable or not, is rethrown with no timer
    set.  The parameter counts attempts, not retries after the first. *)
Lemma withRetry_one_single_attempt :
  forall (b : Q) (w : World St) (e : JsError.t) (s : St),
    fn (env w) = (Throw (ThrownError e), s) ->
    withRetry fn 1 b w =
    (Throw (ThrownError e),
     mkWorld s (random w) (randomCalls w) (clock w) (clockReads w) (uuid w)
             (uuidCalls w) (trace w ++ [EvAttempt])).
Proof.
  intros b w e s E. unfold withRetry. change (Z.to_nat 1) with 1%nat.
  apply retryLoop_rethrow; [exact E|reflexivity].
Qed.


(** C4: with [maxRetries >= 1], an operation whose failure carries a code
    outside the allow-list is invoked once; the same error is rethrown;
    nothing is logged, no timer is set and [Math.random] is not read. *)
Theorem withRetry_non_retryable_once :
  forall (m : Z) (b : Q) (w : World St) (e : JsError.t) (s : St),
    (1 <= m)%Z ->
    fn (env w) = (Throw (ThrownError e), s) ->
    isRetryableCode (JsError.code e) = false ->
    withRetry fn m b w =
    (Throw (ThrownError e),
     mkWorld s (random w) (randomCalls w) (clock w) (clockReads w) (uuid w)
             (uuidCalls w) (trace w ++ [EvAttempt])).
Proof.
  intros m b w e s Hm E Hcode. unfold withRetry.
  destruct (Z.to_nat m) as [|r] eqn:Hr; [lia|].
  apply retryLoop_rethrow; [exact E|].
  rewrite Hcode. apply orb_true_r.
Qed.

End RetryClaims.

(** ** The breaker-wrapped persistence call under the retry policy *)

Lemma fire_pass (q : Query) (db : Db) :
  passes 1 (schedule db) = true ->
  dbBreaker_fire q db =
  (Return (fst (execute q (table db))),
   mkDb (snd (execute q (table db))) (tl (schedule db)) (issued db ++ [q])).
Proof.
  unfold dbBreaker_fire. destruct (schedule db) as [|[t|] rest]; simpl;
    intros H; try discriminate; destruct (execute q (table db)); reflexivity.
Qed.

Lemma fire_reject (q : Query) (db : Db) t rest :
  schedule db = Some t :: rest ->
  dbBreaker_fire q db = (Throw t, mkDb (table db) rest (issued db ++ [q])).
Proof. unfold dbBreaker_fire. intros ->. reflexivity. Qed.

(** A rejection with [undefined] or [null] makes the [catch] block itself
    fail on [error.code]. *)
Lemma retryLoop_nullish {St T} (fn : St -> Outcome T * St) (maxRetries : Z)
  (baseDelay : Q) (remaining : nat) (attempt : Z) (w : World St) s :
  fn (env w) = (Throw ThrownNullish, s) ->
  retryLoop fn maxRetries baseDelay (S remaining) attempt w =
  (Throw (ThrownError (typeError "code")),
   mkWorld s (random w) (randomCalls w) (clock w) (clockReads w) (uuid w)
           (uuidCalls w) (trace w ++ [EvAttempt])).
Proof.
  intros E. simpl. unfold tryCatch, attemptOnce, bind, emit, onEnv. simpl.
  rewrite E. reflexivity.
Qed.

Lemma retryLoop_fire_run (q : Query) (maxRetries : Z) (baseDelay : Q) :
  forall (remaining : nat) (attempt : Z) (w : World Db),
    queryRun q w
      (fst (retryLoop (dbBreaker_fire q) maxRetries baseDelay remaining
                      attempt w))
      (snd (retryLoop (dbBreaker_fire q) maxRetries baseDelay remaining
                      attempt w)).
Proof.
  induction remaining as [|remaining IH]; intros attempt w.
  - rewrite retryLoop_done. exists 0%nat, []. simpl.
    rewrite !app_nil_r. repeat split; eauto.
  - destruct (schedule (env w)) as [|[t|] rest] eqn:Hs.
    + (* exhausted schedule: the statement is executed *)
      erewrite retryLoop_success by (apply fire_pass; rewrite Hs; reflexivity).
      exists 1%nat, [EvAttempt]. simpl. rewrite Hs. repeat split; auto.
    + (* rejected *)
      pose proof (fire_reject q (env w) Hs) as E.
      destruct t as [|e].
      * erewrite retryLoop_nullish by exact E.
        exists 1%nat, [EvAttempt]. simpl. rewrite Hs. repeat split; eauto.
      * destruct ((attempt =? maxRetries - 1)%Z
                  || negb (isRetryableCode (JsError.code e))) eqn:Hstop.
        -- erewrite retryLoop_rethrow; [|exact E|exact Hstop].
           exists 1%nat, [EvAttempt]. simpl. rewrite Hs. repeat split; eauto.
        -- apply orb_false_iff in Hstop as [Hlast Hretry].
           apply negb_false_iff in Hretry.
           erewrite retryLoop_retry; [|exact E|exact Hlast|exact Hretry].
           match goal with
           | |- context [retryLoop _ _ _ _ _ ?w1] =>
               destruct (IH (attempt + 1)%Z w1)
                 as (k & dt & Htr & Hatt & Hpub & Hiss & Hsch & Hc & Hcr &
                     Hu & Huc & Hout)
           end.
           cbn [trace env issued schedule table clock clockReads uuid
                uuidCalls] in *.
           eexists (S k), _. split; [rewrite Htr, <- app_assoc; reflexivity|].
           cbn [app attempts published repeat skipn]. rewrite Hs.
           rewrite Hiss, <- app_assoc.
           repeat (split; [solve [auto]|]).
           destruct (fst (retryLoop _ _ _ _ _ _)); [|exact Hout].
           destruct Hout as (Hk & Hres & Htab). repeat split; auto.
    + (* let through *)
      erewrite retryLoop_success by (apply fire_pass; rewrite Hs; reflexivity).
      exists 1%nat, [EvAttempt]. simpl. rewrite Hs. repeat split; auto.
Qed.

Lemma query_run (q : Query) (w w1 : World Db) (o : Outcome QueryResult) :
  TodoService.query q w = (o, w1) -> queryRun q w o w1.
Proof.
  intros E. unfold TodoService.query, withRetry in E.
  pose proof (retryLoop_fire_run q defaultMaxRetries defaultBaseDelay
                (Z.to_nat defaultMaxRetries) 0%Z w) as H.
  rewrite E in H. exact H.
Qed.

(** A call that is let through at once. *)
Lemma query_pass (q : Query) (w : World Db) :
  passes 1 (schedule (env w)) = true ->
  TodoService.query q w =
  (Return (fst (execute q (table (env w)))),
   mkWorld (mkDb (snd (execute q (table (env w)))) (tl (schedule (env w)))
                 (issued (env w) ++ [q]))
           (random w) (randomCalls w) (clock w) (clockReads w) (uuid w)
           (uuidCalls w) (trace w ++ [EvAttempt])).
Proof.
  intros H. unfold TodoService.query, withRetry.
  change (Z.to_nat defaultMaxRetries) with 3%nat.
  apply retryLoop_success. apply fire_pass. exact H.
Qed.


(** ** The service *)

Lemma mapRow_aliased (row : Row.t) : aliased (TodoService.mapRow row).
Proof. reflexivity. Qed.

Lemma map_mapRow_aliased (l : list Row.t) :
  Forall aliased (map TodoService.mapRow l).
Proof.
  induction l as [|r l IH]; simpl; constructor; auto using mapRow_aliased.
Qed.

Create HintDb todo.
#[local] Hint Resolve mapRow_aliased map_mapRow_aliased : todo.

Arguments TodoService.query : simpl never.

(** Case analysis on the next monadic step of a service call: a wrapped
    persistence call, the rows of its result, or an optional Todo. *)
Ltac service_step :=
  match goal with
  | |- context [TodoService.query ?q ?w0] =>
      let E := fresh "Equery" in
      destruct (TodoService.query q w0) as [[?res|?thrown] ?w1] eqn:E
  | |- context [match rows ?r with _ => _ end] => destruct (rows r) eqn:?
  end.

Ltac service_unfold :=
  unfold perform, TodoService.findAll, TodoService.create,
    TodoService.update, TodoService.delete, TodoService.complete,
    TodoService.findById, TodoService.mapFirstRow, publishTodoCreated,
    publishTodoUpdated, publishTodoDeleted, publishTodoCompleted,
    eventBus_publish, logAt, sleep, bind, ret, throw, emit, uuidv4, nowISO.

(** C10: every Todo that one of [findAll], [findById], [create],
    [update], [complete] and [delete] returns has [notes] equal to
    [description], in any world and for any behaviour of the database. *)
Theorem returned_todos_alias_notes :
  forall (op : Operation) (w : World Db),
    match fst (perform op w) with
    | Return todos => Forall aliased todos
    | Throw _ => True
    end.
Proof.
  intros op w. destruct op; service_unfold;
    cbn; repeat (service_step; cbn); auto with todo.
Qed.

Lemma firstWithId_filter (id : string) (tbl : list Row.t) (row : Row.t) :
  firstWithId id tbl = Some row ->
  exists rest, filter (hasId id) tbl = row :: rest /\ Row.id row = id.
Proof.
  unfold firstWithId. destruct (filter (hasId id) tbl) as [|r rest] eqn:Hf;
    [discriminate|].
  intros [= ->]. exists rest. split; [reflexivity|].
  assert (Hin : In row (filter (hasId id) tbl)) by (rewrite Hf; left; reflexivity).
  apply filter_In in Hin as [_ Hid]. apply String.eqb_eq in Hid. exact Hid.
Qed.

Lemma firstWithId_none (id : string) (tbl : list Row.t) :
  firstWithId id tbl = None -> filter (hasId id) tbl = [].
Proof.
  unfold firstWithId. destruct (filter (hasId id) tbl); [reflexivity|discriminate].
Qed.

(** Runs the next wrapped persistence call of the goal and records what
    [query_run] says about it. *)
Ltac run_query E H :=
  match goal with
  | |- context [TodoService.query ?q ?w0] =>
      destruct (TodoService.query q w0) as [[?res|?thrown] ?w1] eqn:E;
      pose proof (query_run _ _ E) as H
  end.

Ltac world_fields H :=
  cbn [env trace clock clockReads uuid uuidCalls random randomCalls table
       issued schedule] in H.


(** C9: [delete].  When the table holds the id, a call that returns gives
    back the row as it was read before the DELETE (mapped by [mapRow]):
    the reads all precede the DELETE, the rows with that id are gone from
    the table afterwards, and exactly one event, of type deleted, has
    been published, carrying the id and the title of that row; a call
    that throws has published nothing.  When the table does not hold the
    id, only reads are issued, the table is unchanged, nothing is
    published, and the call returns [null] unless the read itself fails.
    In both cases the call returns when the persistence calls are let
    through. *)
Theorem delete_returns_snapshot :
  forall (id : string) (w : World Db),
    exists (dt : list Event) (reads writes : nat),
      trace (snd (TodoService.delete id w)) = trace w ++ dt /\
      issued (env (snd (TodoService.delete id w))) =
        issued (env w) ++ repeat (SelectById id) reads ++
        repeat (DeleteTodo id) writes /\
      match firstWithId id (table (env w)) with
      | Some row =>
          (passes 2 (schedule (env w)) = true ->
           fst (TodoService.delete id w) =
             Return (Some (TodoService.mapRow row))) /\
          match fst (TodoService.delete id w) with
          | Return (Some todo) =>
              todo = TodoService.mapRow row /\
              table (env (snd (TodoService.delete id w))) =
                filter (fun r => negb (hasId id r)) (table (env w)) /\
              exists ev,
                published dt = [ev] /\
                CloudEvent.type ev = "todos.todo.deleted.v1" /\
                CloudEvent.data ev =
                  [("todoId", Some (Row.id row));
                   ("title", Some (Row.title row))]
          | Return None => False
          | Throw _ => published dt = []
          end
      | None =>
          (passes 1 (schedule (env w)) = true ->
           fst (TodoService.delete id w) = Return None) /\
          writes = 0%nat /\
          published dt = [] /\
          table (env (snd (TodoService.delete id w))) = table (env w) /\
          match fst (TodoService.delete id w) with
          | Return (Some _) => False
          | _ => True
          end
      end.
Proof.
  intros id w.
  assert (Hp1 : passes 2 (schedule (env w)) = true ->
                passes 1 (schedule (env w)) = true).
  { destruct (schedule (env w)) as [|[|] ?]; auto. }
  assert (Hp2 : passes 2 (schedule (env w)) = true ->
                passes 1 (tl (schedule (env w))) = true).
  { destruct (schedule (env w)) as [|[|] [|[|] ?]]; auto; discriminate. }
  destruct (firstWithId id (table (env w))) as [row|] eqn:Hrow.
  - destruct (firstWithId_filter _ _ Hrow) as (rest & Hf & Hid).
    service_unfold. cbn.
    run_query E1 Q1; cbn;
      destruct Q1 as (k1 & dt1 & Htr1 & _ & Hpub1 & Hiss1 & Hsch1 & _ & _ & _
                      & _ & Hout1).
    + destruct Hout1 as (Hk1 & -> & Htab1). cbn. rewrite Hf. cbn.
      run_query E2 Q2; cbn;
        destruct Q2 as (k2 & dt2 & Htr2 & _ & Hpub2 & Hiss2 & _ & _ & _ & _
                        & _ & Hout2).
      * destruct Hout2 as (_ & _ & Htab2).
        eexists _, k1, k2.
        split; [rewrite Htr2, Htr1, <- !app_assoc; reflexivity|].
        split; [rewrite Hiss2, Hiss1, <- app_assoc; reflexivity|].
        split; [|split; [reflexivity|split]].
        -- intros _. reflexivity.
        -- rewrite Htab2, Htab1. reflexivity.
        -- eexists. rewrite !published_app, Hpub1, Hpub2. cbn.
           repeat split; reflexivity.
      * exists (dt1 ++ dt2), k1, k2.
        split; [rewrite Htr2, Htr1, app_assoc; reflexivity|].
        split; [rewrite Hiss2, Hiss1, <- app_assoc; reflexivity|].
        split; [|rewrite published_app, Hpub1, Hpub2; reflexivity].
        intros Hpass. exfalso.
        rewrite query_pass in E1 by auto. injection E1 as <-.
        rewrite query_pass in E2 by (cbn; auto). discriminate.
    + exists dt1, k1, 0%nat. split; [exact Htr1|].
      split; [rewrite Hiss1, app_nil_r; reflexivity|].
      split; [|exact Hpub1].
      intros Hpass. exfalso.
      rewrite query_pass in E1 by auto. discriminate.
  - apply firstWithId_none in Hrow.
    service_unfold. cbn.
    run_query E1 Q1; cbn;
      destruct Q1 as (k1 & dt1 & Htr1 & _ & Hpub1 & Hiss1 & Hsch1 & _ & _ & _
                      & _ & Hout1).
    + destruct Hout1 as (Hk1 & -> & Htab1). cbn. rewrite Hrow. cbn.
      exists dt1, k1, 0%nat. rewrite app_nil_r. auto 10.
    + destruct Hout1 as (_ & Htab1).
      exists dt1, k1, 0%nat. rewrite app_nil_r.
      repeat (split; [solve [auto]|]).
      split; [|auto].
      intros Hpass. rewrite query_pass in E1 by auto. discriminate.
Qed.

(** ** The resolvers *)

Ltac resolver_unfold :=
  unfold resolve, todoResolvers.todos, todoResolvers.todo,
    todoResolvers.createTodo, todoResolvers.updateTodo,
    todoResolvers.deleteTodo, todoResolvers.completeTodo, validateInput.


Lemma validateInput_update (input : UpdateTodoInput.t) :
  isValidUpdate input = true ->
  validateInput UpdateTodoInputSchema input = inr input.
Proof.
  unfold isValidUpdate, validateInput, UpdateTodoInputSchema.
  match goal with
  | |- context [match ?l with [] => _ | _ :: _ => _ end] => destruct l
  end; [reflexivity|discriminate].
Qed.

(** C6: [createTodo] with a title shorter than three characters returns
    the validation error object, whose [fields] hold the entry for
    [title] with its message; the database is not touched (nothing is
    handed to the breaker), no id and no time stamp are drawn, so
    [todoService.create] has not run. *)
Theorem createTodo_short_title :
  forall (input : CreateTodoInput.t) (cid : string) (w : World Db),
    (String.length (CreateTodoInput.title input) < 3)%nat ->
    exists (e : ValidationError.t) (w' : World Db) (dt : list Event),
      todoResolvers.createTodo input cid w = (Return (ResValidationError e), w') /\
      ValidationError.typename e = "ValidationError" /\
      ValidationError.code e = "VALIDATION_ERROR" /\
      In (mkFieldError "title" "Title must be at least 3 characters")
         (ValidationError.fields e) /\
      env w' = env w /\
      uuidCalls w' = uuidCalls w /\ clockReads w' = clockReads w /\
      trace w' = trace w ++ dt /\ attempts dt = 0%nat /\ published dt = [].
Proof.
  intros input cid w Hlen. apply Nat.ltb_lt in Hlen.
  unfold todoResolvers.createTodo, validateInput, CreateTodoInputSchema,
    checkMinMax.
  rewrite Hlen. cbn -[String.concat]. unfold bind, logAt, emit, ret. cbn.
  eexists _, _, _. split; [reflexivity|]. cbn.
  repeat split; try reflexivity.
  - left. reflexivity.
  - rewrite <- app_assoc. reflexivity.
  - reflexivity.
  - reflexivity.
Qed.

(** C7, as the code has it: [updateTodo] with an input that passes the
    schema and an id that the table does not hold.  Only reads of that id
    are handed to the breaker, the table is unchanged and nothing is
    published; the resolver returns the not-found object carrying the id,
    unless the read itself fails, and then it throws its technical error.
    When the read is let through at once, not-found is returned after
    exactly one read. *)
Theorem updateTodo_missing_id :
  forall (id : string) (input : UpdateTodoInput.t) (cid : string)
         (w : World Db),
    isValidUpdate input = true ->
    firstWithId id (table (env w)) = None ->
    exists (dt : list Event) (reads : nat),
      trace (snd (todoResolvers.updateTodo id input cid w)) = trace w ++ dt /\
      published dt = [] /\
      issued (env (snd (todoResolvers.updateTodo id input cid w))) =
        issued (env w) ++ repeat (SelectById id) reads /\
      table (env (snd (todoResolvers.updateTodo id input cid w))) =
        table (env w) /\
      (fst (todoResolvers.updateTodo id input cid w) =
         Return (ResTodoNotFoundError "Todo not found" "TODO_NOT_FOUND" id) \/
       exists m,
         fst (todoResolvers.updateTodo id input cid w) =
           Throw (internalError "Failed to update todo" m)) /\
      (passes 1 (schedule (env w)) = true ->
       fst (todoResolvers.updateTodo id input cid w) =
         Return (ResTodoNotFoundError "Todo not found" "TODO_NOT_FOUND" id) /\
       reads = 1%nat).
Proof.
  intros id input cid w Hvalid Hrow. apply firstWithId_none in Hrow.
  unfold todoResolvers.updateTodo. rewrite (validateInput_update _ Hvalid).
  unfold tryCatch. service_unfold. cbn.
  run_query E1 Q1; cbn;
    destruct Q1 as (k1 & dt1 & Htr1 & _ & Hpub1 & Hiss1 & _ & _ & _ & _ & _
                    & Hout1);
    world_fields Htr1; world_fields Hiss1; world_fields Hout1.
  - destruct Hout1 as (_ & -> & Htab1). cbn. rewrite Hrow. cbn.
    eexists _, k1.
    split; [rewrite Htr1, <- app_assoc; reflexivity|].
    split; [rewrite published_app, Hpub1; reflexivity|].
    split; [exact Hiss1|].
    split; [exact Htab1|].
    split; [left; reflexivity|].
    intros Hpass. split; [reflexivity|].
    rewrite query_pass in E1 by exact Hpass. injection E1 as Hw.
    apply (f_equal (fun x => List.length (issued (env x)))) in Hw.
    cbn in Hw. rewrite Hiss1, !length_app, repeat_length in Hw. cbn in Hw. lia.
  - destruct Hout1 as ((e & ->) & Htab1). cbn.
    eexists _, k1.
    split; [rewrite Htr1, <- !app_assoc; reflexivity|].
    split; [rewrite !published_app, Hpub1; reflexivity|].
    split; [exact Hiss1|].
    split; [exact Htab1|].
    split; [right; eexists; reflexivity|].
    intros Hpass. rewrite query_pass in E1 by exact Hpass. discriminate.
Qed.

(** ** Retry outside, breaker inside *)


Ltac rewrite_traces :=
  repeat match goal with
         | H : trace _ = _ |- _ => rewrite H; clear H
         end.

Ltac rewrite_issued :=
  repeat match goal with
         | H : issued _ = _ |- _ => rewrite H; clear H
         end.


Lemma isTimeout_object (t : Thrown) :
  isTimeout t = true -> exists e, t = ThrownError e.
Proof. destruct t as [|e]; [discriminate|eauto]. Qed.





(** ** Technical failures at the API boundary *)

(** What the operations throw is always an [Error] object. *)
Lemma perform_throws_object (op : Operation) (w : World Db) (t : Thrown) :
  fst (perform op w) = Throw t -> exists e, t = ThrownError e.
Proof.
  destruct op; service_unfold; cbn;
    repeat
      (match goal with
       | |- context [TodoService.query ?q ?w0] =>
           let E := fresh "E" in
           let Q := fresh "Q" in
           run_query E Q;
           destruct Q as (? & ? & _ & _ & _ & _ & _ & _ & _ & _ & _ & ?Hout)
       | |- context [match rows ?r with _ => _ end] => destruct (rows r)
       end; cbn);
    intros H; try discriminate; injection H as <-;
    try (destruct Hout as [He _]; exact He);
    try (destruct Hout0 as [He _]; exact He);
    eexists; reflexivity.
Qed.

Lemma create_throws_object (input : CreateTodoInput.t) (w w1 : World Db) t :
  TodoService.create input w = (Throw t, w1) -> exists e, t = ThrownError e.
Proof.
  intros E. apply (@perform_throws_object (OpCreate input) w).
  unfold perform, bind. rewrite E. reflexivity.
Qed.

Lemma update_throws_object (id : string) (input : UpdateTodoInput.t)
  (w w1 : World Db) t :
  TodoService.update id input w = (Throw t, w1) -> exists e, t = ThrownError e.
Proof.
  intros E. apply (@perform_throws_object (OpUpdate id input) w).
  unfold perform, bind. rewrite E. reflexivity.
Qed.

(** C2, as the code has it: whenever [createTodo] or [updateTodo] throws,
    the service has thrown some error [e], and the resolver throws a
    GraphQLError with its own fixed message whose extensions are exactly
    the code INTERNAL_ERROR and [originalError], the message of [e]; there
    is no correlation id among them.  The correlation id goes to the
    error-level log entry written just before, together with the same
    message (and, for [createTodo], the stack). *)
Theorem resolver_technical_error :
  (forall (input : CreateTodoInput.t) (cid : string) (w w' : World Db)
          (t : Thrown),
     todoResolvers.createTodo input cid w = (Throw t, w') ->
     exists (e : JsError.t) (w0 w1 : World Db),
       TodoService.create input w0 = (Throw (ThrownError e), w1) /\
       t = ThrownError
             (JsError.mk None "Failed to create todo"
                [("code", "INTERNAL_ERROR");
                 ("originalError", JsError.message e)]) /\
       trace w' =
         trace w1 ++
         [EvLog LevelError (Some cid) "Failed to create todo"
            [("error", LvString (JsError.message e)); ("stack", LvStack e)]]) /\
  (forall (id : string) (input : UpdateTodoInput.t) (cid : string)
          (w w' : World Db) (t : Thrown),
     todoResolvers.updateTodo id input cid w = (Throw t, w') ->
     exists (e : JsError.t) (w0 w1 : World Db),
       TodoService.update id input w0 = (Throw (ThrownError e), w1) /\
       t = ThrownError
             (JsError.mk None "Failed to update todo"
                [("code", "INTERNAL_ERROR");
                 ("originalError", JsError.message e)]) /\
       trace w' =
         trace w1 ++
         [EvLog LevelError (Some cid) "Failed to update todo"
            [("todoId", LvString id);
             ("error", LvString (JsError.message e))]]).
Proof.
  split.
  - intros input cid w w' t. unfold todoResolvers.createTodo.
    destruct (validateInput CreateTodoInputSchema input) as [ve|v] eqn:Hv.
    + unfold bind, logAt, emit, ret. cbn. discriminate.
    + assert (v = input) as ->.
      { unfold validateInput in Hv.
        destruct (CreateTodoInputSchema input) eqn:Hs; [|discriminate].
        unfold CreateTodoInputSchema in Hs.
        match type of Hs with
        | context [match ?l with [] => _ | _ :: _ => _ end] => destruct l
        end; [|discriminate].
        injection Hs as <-. injection Hv as <-. reflexivity. }
      unfold tryCatch, bind at 1, logAt at 1, emit at 1. cbn beta iota.
      match goal with
      | |- context [bind (TodoService.create input) _ ?w0] =>
          unfold bind at 1;
          destruct (TodoService.create input w0) as [[created|t0] w1] eqn:E
      end.
      * unfold bind, logAt, emit, ret. cbn. discriminate.
      * destruct (create_throws_object _ _ E) as (e & ->).
        unfold bind, messageOf, logAt, emit, ret, throw, internalError,
          newGraphQLError, stackOf. cbn.
        intros [= <- <-]. eexists e, _, w1. split; [exact E|].
        split; reflexivity.
  - intros id input cid w w' t. unfold todoResolvers.updateTodo.
    destruct (validateInput UpdateTodoInputSchema input) as [ve|v] eqn:Hv.
    + unfold bind, logAt, emit, ret. cbn. discriminate.
    + assert (v = input) as ->.
      { unfold validateInput in Hv.
        destruct (UpdateTodoInputSchema input) eqn:Hs; [|discriminate].
        unfold UpdateTodoInputSchema in Hs.
        match type of Hs with
        | context [match ?l with [] => _ | _ :: _ => _ end] => destruct l
        end; [|discriminate].
        injection Hs as <-. injection Hv as <-. reflexivity. }
      unfold tryCatch, bind at 1, logAt at 1, emit at 1. cbn beta iota.
      match goal with
      | |- context [bind (TodoService.update id input) _ ?w0] =>
          unfold bind at 1;
          destruct (TodoService.update id input w0) as [[[updated|]|t0] w1] eqn:E
      end.
      * unfold bind, logAt, emit, ret. cbn. discriminate.
      * unfold ret. discriminate.
      * destruct (update_throws_object _ _ _ E) as (e & ->).
        unfold bind, messageOf, logAt, emit, ret, throw, internalError,
          newGraphQLError. cbn.
        intros [= <- <-]. eexists e, _, w1. split; [exact E|].
        split; reflexivity.
Qed.

(** ** Concrete runs *)


(** A statement error is rethrown after the single attempt. *)
Lemma withRetry_non_retryable_once_witness :
  withRetry (dbBreaker_fire SelectAll) 3 1000 brokenStatementWorld =
  (Throw syntaxError,
   mkWorld (mkDb [sampleRow] [] [SelectAll])
           (random brokenStatementWorld) (randomCalls brokenStatementWorld)
           (clock brokenStatementWorld) (clockReads brokenStatementWorld)
           (uuid brokenStatementWorld) (uuidCalls brokenStatementWorld)
           (trace brokenStatementWorld ++ [EvAttempt])).
Proof.
  apply (@withRetry_non_retryable_once Db QueryResult
           (dbBreaker_fire SelectAll) 3 1000 brokenStatementWorld).
  - lia.
  - reflexivity.
  - reflexivity.
Defined.


(** A two-character title. *)
Lemma createTodo_short_title_witness :
  exists (e : ValidationError.t) (w' : World Db) (dt : list Event),
    todoResolvers.createTodo (CreateTodoInput.mk "ab" None None) "req-1"
                             calmWorld =
      (Return (ResValidationError e), w') /\
    ValidationError.typename e = "ValidationError" /\
    ValidationError.code e = "VALIDATION_ERROR" /\
    In (mkFieldError "title" "Title must be at least 3 characters")
       (ValidationError.fields e) /\
    env w' = env calmWorld /\
    uuidCalls w' = uuidCalls calmWorld /\
    clockReads w' = clockReads calmWorld /\
    trace w' = trace calmWorld ++ dt /\ attempts dt = 0%nat /\
    published dt = [].
Proof.
  apply (createTodo_short_title (CreateTodoInput.mk "ab" None None) "req-1"
                                calmWorld).
  simpl. lia.
Defined.

(** C7, the claim as stated fails: with a two-character title and an id
    that the table does not hold, [updateTodo] returns the validation
    error, not the not-found object, and does not even read. *)
Lemma updateTodo_missing_id_invalid_input :
  firstWithId "missing" (table (env calmWorld)) = None /\
  fst (todoResolvers.updateTodo "missing"
         (UpdateTodoInput.mk (Some "ab") None None None) "req-1" calmWorld) =
    Return (ResValidationError
              (ValidationError.mk "ValidationError" "Input validation failed"
                 "VALIDATION_ERROR"
                 [mkFieldError "title" "Title must be at least 3 characters"])) /\
  fst (todoResolvers.updateTodo "missing"
         (UpdateTodoInput.mk (Some "ab") None None None) "req-1" calmWorld) <>
    Return (ResTodoNotFoundError "Todo not found" "TODO_NOT_FOUND" "missing") /\
  issued (env (snd (todoResolvers.updateTodo "missing"
                      (UpdateTodoInput.mk (Some "ab") None None None) "req-1"
                      calmWorld))) = [].
Proof.
  split; [reflexivity|]. split; [reflexivity|]. split; [|reflexivity].
  vm_compute. discriminate.
Qed.

(** A valid update of an id that the table does not hold. *)
Lemma updateTodo_missing_id_witness :
  exists (dt : list Event) (reads : nat),
    trace (snd (todoResolvers.updateTodo "missing"
                  (UpdateTodoInput.mk (Some "Call back") None None None)
                  "req-1" calmWorld)) = trace calmWorld ++ dt /\
    published dt = [] /\
    issued (env (snd (todoResolvers.updateTodo "missing"
                        (UpdateTodoInput.mk (Some "Call back") None None None)
                        "req-1" calmWorld))) =
      issued (env calmWorld) ++ repeat (SelectById "missing") reads /\
    table (env (snd (todoResolvers.updateTodo "missing"
                       (UpdateTodoInput.mk (Some "Call back") None None None)
                       "req-1" calmWorld))) = table (env calmWorld) /\
    (fst (todoResolvers.updateTodo "missing"
            (UpdateTodoInput.mk (Some "Call back") None None None)
            "req-1" calmWorld) =
       Return (ResTodoNotFoundError "Todo not found" "TODO_NOT_FOUND" "missing") \/
     exists m,
       fst (todoResolvers.updateTodo "missing"
              (UpdateTodoInput.mk (Some "Call back") None None None)
              "req-1" calmWorld) =
         Throw (internalError "Failed to update todo" m)) /\
    (passes 1 (schedule (env calmWorld)) = true ->
     fst (todoResolvers.updateTodo "missing"
            (UpdateTodoInput.mk (Some "Call back") None None None)
            "req-1" calmWorld) =
       Return (ResTodoNotFoundError "Todo not found" "TODO_NOT_FOUND" "missing") /\
     reads = 1%nat).
Proof.
  apply (updateTodo_missing_id "missing"
           (UpdateTodoInput.mk (Some "Call back") None None None) "req-1"
           calmWorld); reflexivity.
Defined.


(** Deleting the sample row, and deleting an id that is not there. *)
Lemma delete_returns_snapshot_witness :
  fst (TodoService.delete "t1" calmWorld) =
    Return (Some (TodoService.mapRow sampleRow)) /\
  fst (TodoService.delete "missing" calmWorld) = Return None.
Proof.
  split.
  - destruct (delete_returns_snapshot "t1" calmWorld)
      as (dt & reads & writes & _ & _ & Hcase).
    change (firstWithId "t1" (table (env calmWorld))) with (Some sampleRow)
      in Hcase.
    exact (proj1 Hcase eq_refl).
  - destruct (delete_returns_snapshot "missing" calmWorld)
      as (dt & reads & writes & _ & _ & Hcase).
    change (firstWithId "missing" (table (env calmWorld))) with (@None Row.t)
      in Hcase.
    exact (proj1 Hcase eq_refl).
Defined.

(** The run of the first of these deletions. *)
Example delete_sample_run :
  fst (TodoService.delete "t1" calmWorld) =
    Return (Some (TodoService.mapRow sampleRow)) /\
  table (env (snd (TodoService.delete "t1" calmWorld))) = [] /\
  issued (env (snd (TodoService.delete "t1" calmWorld))) =
    [SelectById "t1"; DeleteTodo "t1"] /\
  issued (env (snd (TodoService.delete "missing" calmWorld))) =
    [SelectById "missing"].
Proof. repeat split; reflexivity. Qed.

(** C2, the claim as stated fails: after three timeouts [createTodo]
    throws an error whose extensions hold the message of the underlying
    error under [originalError], and no correlation id. *)
Lemma createTodo_exposes_original_error :
  exists (g : JsError.t) (w' : World Db),
    todoResolvers.createTodo (CreateTodoInput.mk "Buy milk" None None) "req-1"
                             (timeoutsWorld 3) = (Throw (ThrownError g), w') /\
    In ("originalError", "Timed out after 5000ms") (JsError.extensions g) /\
    ~ In "correlationId" (map fst (JsError.extensions g)) /\
    onlyCodeAndCorrelationId g = false.
Proof.
  eexists _, _. split; [vm_compute; reflexivity|].
  split; [right; left; reflexivity|].
  split; [|reflexivity].
  simpl. intros [H|[H|[]]]; discriminate.
Qed.

(** The same run, read through the theorem. *)
Lemma resolver_technical_error_witness :
  exists (e : JsError.t) (w0 w1 : World Db),
    TodoService.create (CreateTodoInput.mk "Buy milk" None None) w0 =
      (Throw (ThrownError e), w1) /\
    internalError "Failed to create todo" "Timed out after 5000ms" =
      ThrownError
        (JsError.mk None "Failed to create todo"
           [("code", "INTERNAL_ERROR"); ("originalError", JsError.message e)]) /\
    trace (snd (todoResolvers.createTodo
                  (CreateTodoInput.mk "Buy milk" None None) "req-1"
                  (timeoutsWorld 3))) =
      trace w1 ++
      [EvLog LevelError (Some "req-1") "Failed to create todo"
         [("error", LvString (JsError.message e)); ("stack", LvStack e)]].
Proof.
  apply (proj1 resolver_technical_error
           (CreateTodoInput.mk "Buy milk" None None) "req-1" (timeoutsWorld 3)
           (snd (todoResolvers.createTodo
                   (CreateTodoInput.mk "Buy milk" None None) "req-1"
                   (timeoutsWorld 3)))
           (internalError "Failed to create todo" "Timed out after 5000ms")).
  vm_compute. reflexivity.
Defined.

(** Five timeouts against the defaults: three attempts, and the two
    delays are 1000 + 500 and 2000 + 500. *)
Example withRetry_five_timeouts_run :
  let w' := snd (withRetry (dbBreaker_fire SelectAll) 3 1000 (timeoutsWorld 5)) in
  attempts (trace w') = 3%nat /\
  map Qred (sleeps (trace w')) = [1500; 2500]%Q /\
  issued (env w') = [SelectAll; SelectAll; SelectAll].
Proof. repeat split; reflexivity. Qed.

(** With [maxRetries = 0] an operation that would have succeeded is not
    even tried. *)
Example withRetry_zero_run :
  fst (withRetry (dbBreaker_fire SelectAll) 0 1000 calmWorld) =
    Throw (ThrownError (newError "Max retries reached")) /\
  issued (env (snd (withRetry (dbBreaker_fire SelectAll) 0 1000 calmWorld))) = [] /\
  attempts (trace (snd (withRetry (dbBreaker_fire SelectAll) 0 1000 calmWorld)))
    = 0%nat.
Proof. repeat split; reflexivity. Qed.

(** * Further properties *)

(** ** The retry loop for an arbitrary operation *)

Section RetryShape.
Context {St T : Type}.
Variable fn : St -> Outcome T * St.
Variable maxRetries : Z.
Variable baseDelay : Q.

(** Whatever the operation does: at most [remaining] attempts, one timer
    and one warning between two attempts, the warnings numbered from
    [attempt + 1] on, one value of [Math.random] per timer, and neither
    clock nor uuid source read. *)
Lemma retryLoop_shape :
  forall (remaining : nat) (attempt : Z) (w : World St),
    maxRetries = (attempt + Z.of_nat remaining)%Z ->
    exists dt,
      trace (snd (retryLoop fn maxRetries baseDelay remaining attempt w)) =
        trace w ++ dt /\
      (attempts dt <= remaining)%nat /\
      ((1 <= remaining)%nat -> (1 <= attempts dt)%nat) /\
      List.length (sleeps dt) = (attempts dt - 1)%nat /\
      warnedAttempts dt = countFrom attempt (attempts dt - 1) /\
      published dt = [] /\
      randomCalls (snd (retryLoop fn maxRetries baseDelay remaining attempt w)) =
        (randomCalls w + (attempts dt - 1))%nat /\
      random (snd (retryLoop fn maxRetries baseDelay remaining attempt w)) =
        random w /\
      clockReads (snd (retryLoop fn maxRetries baseDelay remaining attempt w)) =
        clockReads w /\
      uuidCalls (snd (retryLoop fn maxRetries baseDelay remaining attempt w)) =
        uuidCalls w /\
      ((forall i, 0 <= random w i /\ random w i < 1)%Q ->
       delaysFrom baseDelay attempt (sleeps dt)).
Proof.
  induction remaining as [|remaining IH]; intros attempt w Hm.
  - rewrite retryLoop_done. exists []. simpl. rewrite app_nil_r.
    repeat split; auto; lia.
  - destruct (fn (env w)) as [[v|[|e]] s] eqn:E.
    + erewrite retryLoop_success by exact E. exists [EvAttempt]. simpl.
      repeat split; auto; lia.
    + erewrite retryLoop_nullish by exact E. exists [EvAttempt]. simpl.
      repeat split; auto; lia.
    + destruct ((attempt =? maxRetries - 1)%Z
                || negb (isRetryableCode (JsError.code e))) eqn:Hstop.
      * erewrite retryLoop_rethrow; [|exact E|exact Hstop].
        exists [EvAttempt]. simpl. repeat split; auto; lia.
      * apply orb_false_iff in Hstop as [Hlast Hretry].
        apply negb_false_iff in Hretry.
        erewrite retryLoop_retry; [|exact E|exact Hlast|exact Hretry].
        match goal with
        | |- context [retryLoop _ _ _ _ _ ?w1] =>
            destruct (IH (attempt + 1)%Z w1 ltac:(lia))
              as (dt & Htr & Hle & Hge & Hlen & Hwarn & Hpub & Hrc & Hr &
                  Hcr & Huc & Hds)
        end.
        apply Z.eqb_neq in Hlast.
        cbn [trace randomCalls random clockReads uuidCalls] in *.
        eexists. split; [rewrite Htr, <- app_assoc; reflexivity|].
        cbn [app attempts sleeps warnedAttempts published List.length].
        cbn [String.eqb Ascii.eqb Bool.eqb andb].
        rewrite Hlen, Hwarn, Hrc.
        destruct (attempts dt) as [|a] eqn:Ha.
        -- specialize (Hge ltac:(lia)). lia.
        -- simpl. rewrite Nat.sub_0_r.
           repeat (split; [solve [auto | lia]|]).
           intros Hrand. cbn [delaysFrom]. split; [|exact (Hds Hrand)].
           unfold backoff. destruct (Hrand (randomCalls w)) as [H0 H1].
           split; lra.
Qed.

End RetryShape.

Section RetryOutcome.
Context {St T : Type}.
Variable fn : St -> Outcome T * St.



Lemma retryLoop_nthOutcome (maxRetries : Z) (baseDelay : Q) :
  forall (remaining n : nat) (attempt : Z) (w : World St),
    maxRetries = (attempt + Z.of_nat (S remaining))%Z ->
    failsThenSucceeds fn n (env w) = true ->
    (fst (retryLoop fn maxRetries baseDelay (S remaining) attempt w),
     env (snd (retryLoop fn maxRetries baseDelay (S remaining) attempt w))) =
    nthOutcome fn (Nat.min n remaining) (env w).
Proof.
  induction remaining as [|remaining IH]; intros n attempt w Hm Hfn.
  - rewrite Nat.min_0_r. cbn [nthOutcome]. destruct n as [|n]; simpl in Hfn.
    + destruct (fn (env w)) as [[v|t] s] eqn:E; try discriminate.
      erewrite retryLoop_success by exact E. reflexivity.
    + destruct (fn (env w)) as [[v|[|e]] s] eqn:E; try discriminate.
      erewrite retryLoop_rethrow; [reflexivity|exact E|].
      apply orb_true_iff. left. apply Z.eqb_eq. lia.
  - destruct n as [|n]; simpl in Hfn.
    + cbn [Nat.min nthOutcome].
      destruct (fn (env w)) as [[v|t] s] eqn:E; try discriminate.
      erewrite retryLoop_success by exact E. reflexivity.
    + destruct (fn (env w)) as [[v|[|e]] s] eqn:E; try discriminate.
      apply andb_true_iff in Hfn as [Hretry Hrest].
      erewrite retryLoop_retry; [|exact E|apply Z.eqb_neq; lia|exact Hretry].
      rewrite (IH n); [|lia|exact Hrest].
      cbn [env Nat.min nthOutcome]. rewrite E. reflexivity.
Qed.

(** X2: An operation that fails [n] times with retryable errors and then
    succeeds: when [n < m], [withRetry] returns the value of its
    [(n+1)]-th invocation; otherwise it throws the error of its [m]-th
    invocation.  In both cases the environment is the one that
    invocation left. *)
Theorem withRetry_result :
  forall (m : Z) (b : Q) (n : nat) (w : World St),
    (1 <= m)%Z ->
    failsThenSucceeds fn n (env w) = true ->
    (fst (withRetry fn m b w), env (snd (withRetry fn m b w))) =
    nthOutcome fn (Nat.min n (Z.to_nat m - 1)) (env w).
Proof.
  intros m b n w Hm Hfn. unfold withRetry.
  destruct (Z.to_nat m) as [|r] eqn:Hr; [lia|].
  replace (S r - 1)%nat with r by lia.
  apply retryLoop_nthOutcome; [lia|exact Hfn].
Qed.

(** X3: For any operation and any [maxRetries]: the attempts never exceed
    [maxRetries]; between two attempts there is exactly one timer and
    one warning, the warnings being numbered 1, 2, ...; every timer uses
    one value of [Math.random]; nothing is published and neither the
    clock nor the uuid source is read. *)
Theorem withRetry_one_timer_per_retry :
  forall (m : Z) (b : Q) (w : World St),
    exists dt,
      trace (snd (withRetry fn m b w)) = trace w ++ dt /\
      (Z.of_nat (attempts dt) <= Z.max 0 m)%Z /\
      List.length (sleeps dt) = (attempts dt - 1)%nat /\
      warnedAttempts dt = countFrom 0 (attempts dt - 1) /\
      randomCalls (snd (withRetry fn m b w)) =
        (randomCalls w + (attempts dt - 1))%nat /\
      published dt = [] /\
      clockReads (snd (withRetry fn m b w)) = clockReads w /\
      uuidCalls (snd (withRetry fn m b w)) = uuidCalls w.
Proof.
  intros m b w. unfold withRetry.
  destruct (Z_le_gt_dec 0 m) as [Hm|Hm].
  - destruct (@retryLoop_shape St T fn m b (Z.to_nat m) 0%Z w ltac:(lia))
      as (dt & Htr & Hle & _ & Hlen & Hwarn & Hpub & Hrc & _ & Hcr & Huc & _).
    exists dt. repeat split; auto. lia.
  - replace (Z.to_nat m) with 0%nat by lia. rewrite retryLoop_done.
    exists []. simpl. rewrite app_nil_r. repeat split; auto. lia.
Qed.

End RetryOutcome.

(** ** Worst-case backoff *)





(** ** Reads *)








(** X6: [findById], for any behaviour of the database: the table is left as
    it was and nothing is published; a call that returns gives the first
    row with that id, mapped by [mapRow], or [null] when there is none;
    and the call returns when it is let through. *)
Theorem findById_first_row_or_null :
  forall (id : string) (w : World Db),
    table (env (snd (TodoService.findById id w))) = table (env w) /\
    (exists dt,
       trace (snd (TodoService.findById id w)) = trace w ++ dt /\
       published dt = []) /\
    (passes 1 (schedule (env w)) = true ->
     fst (TodoService.findById id w) =
       Return (option_map TodoService.mapRow
                          (firstWithId id (table (env w))))) /\
    match fst (TodoService.findById id w) with
    | Return found =>
        found = option_map TodoService.mapRow (firstWithId id (table (env w)))
    | Throw _ => True
    end.
Proof.
  intros id w. unfold TodoService.findById, bind, ret, firstWithId.
  destruct (TodoService.query (SelectById id) w) as [[res|t] w1] eqn:E;
    pose proof (query_run _ _ E)
      as (k & dt & Htr & _ & Hpub & _ & _ & _ & _ & _ & _ & Hout); cbn.
  - destruct Hout as (_ & -> & Htab). cbn in Htab |- *.
    destruct (filter (hasId id) (table (env w))); cbn;
      (split; [exact Htab|]); (split; [eauto|]); split; reflexivity.
  - destruct Hout as (_ & Htab).
    split; [exact Htab|]. split; [eauto|]. split; [|exact I].
    intros Hpass. rewrite query_pass in E by exact Hpass. discriminate.
Qed.

(** ** Writes *)





(** ** What the operations leave alone *)

Lemma filter_others_map (id : string) (f : Row.t -> Row.t) (tbl : list Row.t) :
  (forall r, Row.id (f r) = Row.id r) ->
  filter (fun r => negb (hasId id r))
         (map (fun r => if hasId id r then f r else r) tbl) =
  filter (fun r => negb (hasId id r)) tbl.
Proof.
  intros Hf. induction tbl as [|r tbl IH]; [reflexivity|]. cbn [map filter].
  destruct (hasId id r) eqn:Hr; cbn.
  - unfold hasId in *. rewrite Hf, Hr. cbn. exact IH.
  - rewrite Hr. cbn. rewrite IH. reflexivity.
Qed.

Lemma filter_others_filter (id : string) (tbl : list Row.t) :
  filter (fun r => negb (hasId id r))
         (filter (fun r => negb (hasId id r)) tbl) =
  filter (fun r => negb (hasId id r)) tbl.
Proof.
  induction tbl as [|r tbl IH]; [reflexivity|]. cbn [filter].
  destruct (negb (hasId id r)) eqn:Hr; cbn [filter]; rewrite ?Hr, IH;
    reflexivity.
Qed.

(** The statements aimed at [id] leave the rows of every other id as
    they are, in their order. *)
Lemma execute_others (id : string) (q : Query) (tbl : list Row.t) :
  match q with
  | SelectById i | DeleteTodo i | CompleteTodo i _ | UpdateTodo i _ _ _ _ _ =>
      i = id
  | _ => False
  end ->
  filter (fun r => negb (hasId id r)) (snd (execute q tbl)) =
  filter (fun r => negb (hasId id r)) tbl.
Proof.
  destruct q; intros H; try contradiction; subst; cbn.
  - reflexivity.
  - apply filter_others_map. reflexivity.
  - apply filter_others_map. reflexivity.
  - apply filter_others_filter.
Qed.

Lemma query_others (id : string) (q : Query) (w w1 : World Db) o :
  match q with
  | SelectById i | DeleteTodo i | CompleteTodo i _ | UpdateTodo i _ _ _ _ _ =>
      i = id
  | _ => False
  end ->
  TodoService.query q w = (o, w1) ->
  filter (fun r => negb (hasId id r)) (table (env w1)) =
  filter (fun r => negb (hasId id r)) (table (env w)).
Proof.
  intros Hq E.
  destruct (query_run _ _ E) as (k & dt & _ & _ & _ & _ & _ & _ & _ & _ & _
                                 & Hout).
  destruct o as [res|t].
  - destruct Hout as (_ & _ & ->). apply execute_others. exact Hq.
  - destruct Hout as (_ & ->). reflexivity.
Qed.

(** X10: [update], [delete] and [complete] of an id never change a row of
    another id, whatever the database does and whether they return or
    throw: the rows with other ids are the same, in the same order. *)
Theorem writes_leave_other_rows :
  forall (op : Operation) (id : string) (w : World Db),
    targetOf op = Some id ->
    filter (fun r => negb (hasId id r)) (table (env (snd (perform op w)))) =
    filter (fun r => negb (hasId id r)) (table (env w)).
Proof.
  intros op id w Htarget.
  destruct op; try discriminate; cbn in Htarget; injection Htarget as ->;
    service_unfold; cbn;
    repeat
      (match goal with
       | |- context [TodoService.query ?q ?w0] =>
           let E := fresh "E" in
           let H := fresh "Hothers" in
           destruct (TodoService.query q w0) as [[?res|?thrown] ?w1] eqn:E;
           pose proof (fun Hq => @query_others id q w0 _ _ Hq E) as H;
           specialize (H eq_refl);
           cbn [env table] in H
       | |- context [match rows ?r with _ => _ end] => destruct (rows r)
       end; cbn);
    congruence.
Qed.

Lemma filter_hasId_others (id : string) (tbl : list Row.t) :
  filter (hasId id) (filter (fun r => negb (hasId id r)) tbl) = [].
Proof.
  induction tbl as [|r tbl IH]; [reflexivity|].
  cbn [filter]. destruct (hasId id r) eqn:Hr; cbn [negb filter];
    rewrite ?Hr; exact IH.
Qed.

(** A call of [findById] that is let through. *)
Lemma findById_pass (id : string) (w : World Db) :
  passes 1 (schedule (env w)) = true ->
  fst (TodoService.findById id w) =
    Return (option_map TodoService.mapRow (firstWithId id (table (env w)))).
Proof.
  intros Hpass. unfold TodoService.findById, bind, ret, firstWithId.
  rewrite query_pass by exact Hpass. cbn.
  destruct (filter (hasId id) (table (env w))); reflexivity.
Qed.

(** X11: After a [delete] that returned an entity no row with that id is left:
    a [findById] of the same id that is let through returns [null]. *)
Theorem delete_then_findById :
  forall (id : string) (w w1 : World Db) (todo : Todo.t),
    TodoService.delete id w = (Return (Some todo), w1) ->
    firstWithId id (table (env w1)) = None /\
    (passes 1 (schedule (env w1)) = true ->
     fst (TodoService.findById id w1) = Return None).
Proof.
  intros id w w1 todo E.
  assert (Hnone : firstWithId id (table (env w1)) = None).
  { revert E. service_unfold. cbn.
    run_query E1 Q1; cbn;
      destruct Q1 as (k1 & dt1 & _ & _ & _ & _ & _ & _ & _ & _ & _ & Hout1);
      [|discriminate].
    destruct Hout1 as (_ & -> & Htab1). cbn.
    destruct (filter (hasId id) (table (env w))); cbn; [discriminate|].
    run_query E2 Q2; cbn;
      destruct Q2 as (k2 & dt2 & _ & _ & _ & _ & _ & _ & _ & _ & _ & Hout2);
      [|discriminate].
    destruct Hout2 as (_ & _ & Htab2). cbn in Htab1, Htab2.
    intros [= _ <-]. cbn. rewrite Htab2, Htab1.
    unfold firstWithId. rewrite filter_hasId_others. reflexivity. }
  split; [exact Hnone|].
  intros Hpass. rewrite (findById_pass _ _ Hpass), Hnone. reflexivity.
Qed.

(** ** Notifications *)

(** Runs every wrapped persistence call of the goal, keeping for each
    its trace and the fact that it published nothing. *)
Ltac run_queries_published :=
  repeat
    (match goal with
     | |- context [TodoService.query ?q ?w0] =>
         let E := fresh "E" in
         let Q := fresh "Q" in
         let k := fresh "k" in
         let dt := fresh "dt" in
         let Htr := fresh "Htr" in
         let Hpub := fresh "Hpub" in
         run_query E Q;
         destruct Q as (k & dt & Htr & _ & Hpub & _);
         world_fields Htr
     | |- context [match rows ?r with _ => _ end] => destruct (rows r)
     end; cbn).

(** X12: An event is published only by a write that succeeded: an operation
    that throws, a read, and an [update], [delete] or [complete] that
    finds nothing publish no event; a write that returns a Todo publishes
    exactly one, of the type of the operation, with the common envelope
    naming that Todo. *)
Theorem events_only_on_success :
  forall (op : Operation) (w : World Db),
    exists dt,
      trace (snd (perform op w)) = trace w ++ dt /\
      match fst (perform op w), eventTypeOf op with
      | Return (todo :: _), Some type =>
          exists ev,
            published dt = [ev] /\
            CloudEvent.type ev = type /\
            envelopeFor todo ev
      | _, _ => published dt = []
      end.
Proof.
  intros op w.
  destruct op; service_unfold; cbn; run_queries_published;
    eexists;
    (split; [rewrite_traces; rewrite <- ?app_assoc; try reflexivity;
             symmetry; apply app_nil_r|]);
    rewrite ?published_app; cbn;
    repeat match goal with
           | H : published _ = [] |- _ => rewrite H; clear H
           end;
    cbn; try reflexivity;
    try (eexists; split; [reflexivity|]; split; [reflexivity|];
         unfold envelopeFor; cbn; repeat split; reflexivity).
  all: destruct (map TodoService.mapRow _); reflexivity.
Qed.

(** ** Bound on the persistence calls of an operation *)

Lemma query_run_bounded (q : Query) (w w1 : World Db) (o : Outcome QueryResult) :
  TodoService.query q w = (o, w1) ->
  exists (k : nat) (dt : list Event),
    trace w1 = trace w ++ dt /\ attempts dt = k /\ (k <= 3)%nat /\
    List.length (sleeps dt) = (k - 1)%nat /\
    issued (env w1) = issued (env w) ++ repeat q k.
Proof.
  intros E.
  destruct (query_run _ _ E) as (k & dt & Htr & Hatt & _ & Hiss & _).
  exists k, dt. repeat (split; [assumption|]).
  unfold TodoService.query, withRetry in E.
  destruct (@retryLoop_shape Db QueryResult (dbBreaker_fire q)
              defaultMaxRetries defaultBaseDelay
              (Z.to_nat defaultMaxRetries) 0%Z w eq_refl)
    as (dt' & Htr' & Hle & _ & Hlen & _).
  rewrite E in Htr'. cbn [snd] in Htr'.
  rewrite Htr in Htr'. apply app_inv_head in Htr'. subst dt'.
  rewrite Hatt in *. change (Z.to_nat defaultMaxRetries) with 3%nat in Hle.
  repeat split; assumption.
Qed.

(** X13: However the database behaves, a read or a [create] hands at most
    three statements to the breaker, and an [update], [delete] or
    [complete] at most six; the timers set are fewer than the
    statements. *)
Theorem operations_bounded_calls :
  forall (op : Operation) (w : World Db),
    exists (dt : list Event) (di : list Query),
      trace (snd (perform op w)) = trace w ++ dt /\
      issued (env (snd (perform op w))) = issued (env w) ++ di /\
      (List.length di <= maxStatements op)%nat /\
      (List.length (sleeps dt) <= List.length di - 1)%nat.
Proof.
  intros op w.
  destruct op; service_unfold; cbn;
    repeat
      (match goal with
       | |- context [TodoService.query ?q ?w0] =>
           let E := fresh "E" in
           let k := fresh "k" in
           let dt := fresh "dt" in
           let Htr := fresh "Htr" in
           let Hatt := fresh "Hatt" in
           let Hk := fresh "Hk" in
           let Hsl := fresh "Hsl" in
           let Hiss := fresh "Hiss" in
           destruct (TodoService.query q w0) as [[?res|?thrown] ?w1] eqn:E;
           destruct (query_run_bounded _ _ E)
             as (k & dt & Htr & Hatt & Hk & Hsl & Hiss);
           world_fields Htr; world_fields Hiss
       | |- context [match rows ?r with _ => _ end] => destruct (rows r)
       end; cbn);
    eexists _, _;
    (split; [rewrite_traces; rewrite <- ?app_assoc; try reflexivity;
             symmetry; apply app_nil_r|]);
    (split; [rewrite_issued; rewrite <- ?app_assoc; try reflexivity;
             symmetry; apply app_nil_r|]);
    rewrite ?sleeps_app, ?length_app, ?repeat_length; cbn;
    rewrite ?length_app; cbn; lia.
Qed.

(** ** Validation *)

Lemma checkMinMax_title (p : list string) (s : string) :
  map path (checkMinMax p 3 titleTooShort 200 titleTooLong s) =
  if titleOk s then [] else [p].
Proof.
  unfold checkMinMax, titleOk.
  destruct (Nat.ltb_spec (String.length s) 3) as [H3|H3];
    destruct (Nat.ltb_spec 200 (String.length s)) as [H200|H200];
    destruct (Nat.leb_spec 3 (String.length s));
    destruct (Nat.leb_spec (String.length s) 200); cbn; try reflexivity; lia.
Qed.

Lemma checkMax_description (p : list string) (s : string) :
  map path (checkMax p 1000 descriptionTooLong s) =
  if descriptionOk s then [] else [p].
Proof.
  unfold checkMax, descriptionOk.
  destruct (Nat.ltb_spec 1000 (String.length s));
    destruct (Nat.leb_spec (String.length s) 1000); cbn; try reflexivity; lia.
Qed.

Lemma checkDate_path (p : list string) (s : string) :
  map path (checkDate p badDate s) = if matchesDate s then [] else [p].
Proof. unfold checkDate. destruct (matchesDate s); reflexivity. Qed.

Lemma checkStatus_path (p : list string) (s : string) :
  map path (checkStatus p s) = if statusOk s then [] else [p].
Proof.
  unfold checkStatus, statusOk.
  destruct (existsb (String.eqb s) todoStatuses); reflexivity.
Qed.

Lemma optionalCheck_path (check : string -> list Issue) (ok : string -> bool)
  (p : list string) (v : option string) :
  (forall s, map path (check s) = if ok s then [] else [p]) ->
  map path (optionalCheck check v) = if absentOr ok v then [] else [p].
Proof. intros H. destruct v as [s|]; cbn; [apply H|reflexivity]. Qed.

Lemma concat_single (k : string) : String.concat "." [k] = k.
Proof. reflexivity. Qed.

Lemma keyUnless_paths (ok : bool) (key : string) :
  map (String.concat ".") (if ok then [] else [[key]]) = keyUnless ok key.
Proof. destruct ok; reflexivity. Qed.

(** X14: [validateInput] with the create schema: the input is handed back
    unchanged exactly when the title has 3 to 200 characters, the
    description, if present, at most 1000, and the due date, if present,
    the shape YYYY-MM-DD; otherwise the error object lists, in schema
    order and once each, exactly the keys that break their bound. *)
Theorem validateInput_create_keys :
  forall (input : CreateTodoInput.t),
    match validateInput CreateTodoInputSchema input with
    | inr data => data = input /\ invalidKeysCreate input = []
    | inl e =>
        map field (ValidationError.fields e) = invalidKeysCreate input /\
        invalidKeysCreate input <> [] /\
        ValidationError.typename e = "ValidationError" /\
        ValidationError.code e = "VALIDATION_ERROR" /\
        ValidationError.message e = "Input validation failed"
    end.
Proof.
  intros input. unfold validateInput, CreateTodoInputSchema.
  match goal with
  | |- context [match ?l with [] => _ | _ :: _ => _ end] =>
      assert (Hkeys : map (fun i => String.concat "." (path i)) l =
                      invalidKeysCreate input);
        [|destruct l as [|i l'] eqn:Hl]
  end.
  - rewrite <- (map_map path (String.concat ".")), !map_app.
    rewrite checkMinMax_title.
    rewrite (optionalCheck_path _ descriptionOk ["description"])
      by apply checkMax_description.
    rewrite (optionalCheck_path _ matchesDate ["dueDate"])
      by apply checkDate_path.
    rewrite ?map_app, !keyUnless_paths. reflexivity.
  - split; [reflexivity|]. symmetry. exact Hkeys.
  - cbn [ValidationError.fields ValidationError.typename ValidationError.code
         ValidationError.message].
    rewrite map_map. cbn [field]. rewrite Hkeys.
    repeat split; try reflexivity.
    rewrite <- Hkeys. discriminate.
Qed.

(** X15: [validateInput] with the update schema: every key may be absent; the
    input is handed back unchanged exactly when each key that is present
    keeps its bound (title 3 to 200 characters, description at most 1000,
    status one of the four names, due date of the shape YYYY-MM-DD);
    otherwise the error object lists, in schema order and once each,
    exactly the keys that break their bound. *)
Theorem validateInput_update_keys :
  forall (input : UpdateTodoInput.t),
    match validateInput UpdateTodoInputSchema input with
    | inr data => data = input /\ invalidKeysUpdate input = []
    | inl e =>
        map field (ValidationError.fields e) = invalidKeysUpdate input /\
        invalidKeysUpdate input <> [] /\
        ValidationError.typename e = "ValidationError" /\
        ValidationError.code e = "VALIDATION_ERROR" /\
        ValidationError.message e = "Input validation failed"
    end.
Proof.
  intros input. unfold validateInput, UpdateTodoInputSchema.
  match goal with
  | |- context [match ?l with [] => _ | _ :: _ => _ end] =>
      assert (Hkeys : map (fun i => String.concat "." (path i)) l =
                      invalidKeysUpdate input);
        [|destruct l as [|i l'] eqn:Hl]
  end.
  - rewrite <- (map_map path (String.concat ".")), !map_app.
    rewrite (optionalCheck_path _ titleOk ["title"])
      by apply checkMinMax_title.
    rewrite (optionalCheck_path _ descriptionOk ["description"])
      by apply checkMax_description.
    rewrite (optionalCheck_path _ statusOk ["status"])
      by apply checkStatus_path.
    rewrite (optionalCheck_path _ matchesDate ["dueDate"])
      by apply checkDate_path.
    rewrite ?map_app, !keyUnless_paths. reflexivity.
  - split; [reflexivity|]. symmetry. exact Hkeys.
  - cbn [ValidationError.fields ValidationError.typename ValidationError.code
         ValidationError.message].
    rewrite map_map. cbn [field]. rewrite Hkeys.
    repeat split; try reflexivity.
    rewrite <- Hkeys. discriminate.
Qed.

(** ** The resolvers, all six *)

(** Runs the wrapped persistence calls of a resolver; what a call throws
    is an [Error] object. *)
Ltac run_resolver_queries :=
  repeat
    (match goal with
     | |- context [TodoService.query ?q ?w0] =>
         let E := fresh "E" in
         let Q := fresh "Q" in
         let k := fresh "k" in
         let dt := fresh "dt" in
         let Hout := fresh "Hout" in
         run_query E Q;
         destruct Q as (k & dt & _ & _ & _ & _ & _ & _ & _ & _ & _ & Hout);
         [clear Hout | destruct Hout as ((? & ->) & _)]
     | |- context [match rows ?r with _ => _ end] => destruct (rows r)
     end; cbn).

(** X16: Whatever a resolver throws is a GraphQLError with the fixed message
    of that resolver and the extensions [code = INTERNAL_ERROR] and
    [originalError]: no other error leaves the six resolvers, whatever
    the database does. *)
Theorem resolvers_throw_internal_error :
  forall (op : Operation) (cid : string) (w : World Db) (t : Thrown),
    fst (resolve op cid w) = Throw t ->
    exists m, t = internalError (failureMessage op) m.
Proof.
  intros op cid w t.
  destruct op; unfold resolve;
    [unfold todoResolvers.todos
    |unfold todoResolvers.todo
    |unfold todoResolvers.createTodo;
     destruct (validateInput CreateTodoInputSchema input) as [ve|v]
    |unfold todoResolvers.updateTodo;
     destruct (validateInput UpdateTodoInputSchema input) as [ve|v]
    |unfold todoResolvers.deleteTodo
    |unfold todoResolvers.completeTodo];
    unfold tryCatch; service_unfold; cbn; run_resolver_queries;
    intros H; try discriminate H; injection H as <-;
    eexists; reflexivity.
Qed.

(** X17: [deleteTodo] and [completeTodo] of an id that the table does not
    hold: only reads of that id are handed to the breaker, the table is
    unchanged, nothing is published, and the resolver returns the
    not-found object carrying the id, unless the read fails technically. *)
Theorem delete_complete_missing_id :
  forall (id cid : string) (w : World Db),
    firstWithId id (table (env w)) = None ->
    forall (r : Outcome Result * World Db),
      r = todoResolvers.deleteTodo id cid w \/
      r = todoResolvers.completeTodo id cid w ->
      (exists (dt : list Event) (reads : nat),
         trace (snd r) = trace w ++ dt /\
         published dt = [] /\
         issued (env (snd r)) =
           issued (env w) ++ repeat (SelectById id) reads) /\
      table (env (snd r)) = table (env w) /\
      clockReads (snd r) = clockReads w /\
      (fst r = Return (ResTodoNotFoundError "Todo not found" "TODO_NOT_FOUND" id)
       \/ exists msg m, fst r = Throw (internalError msg m)) /\
      (passes 1 (schedule (env w)) = true ->
       fst r = Return (ResTodoNotFoundError "Todo not found" "TODO_NOT_FOUND" id)).
Proof.
  intros id cid w Hrow r Hr. apply firstWithId_none in Hrow.
  destruct Hr as [-> | ->];
    [unfold todoResolvers.deleteTodo | unfold todoResolvers.completeTodo];
    unfold tryCatch; service_unfold; cbn;
    (run_query E1 Q1; cbn;
     destruct Q1 as (k1 & dt1 & Htr1 & _ & Hpub1 & Hiss1 & _ & _ & Hcr1 & _ & _
                     & Hout1);
     world_fields Htr1; world_fields Hiss1; world_fields Hout1;
     world_fields Hcr1;
     [destruct Hout1 as (_ & -> & Htab1); cbn; rewrite Hrow; cbn
     |destruct Hout1 as ((e & ->) & Htab1); cbn]);
    (split;
     [eexists _, k1;
      split; [rewrite Htr1, <- ?app_assoc; reflexivity|];
      split; [rewrite ?published_app, Hpub1; reflexivity|exact Hiss1]|]);
    (split; [exact Htab1|]); (split; [exact Hcr1|]); split;
    try (left; reflexivity); try (right; eexists _, _; reflexivity);
    try (intros _; reflexivity);
    intros Hpass; rewrite query_pass in E1 by exact Hpass; discriminate.
Qed.


(** X19: An input that breaks its schema never reaches the service: both
    [createTodo] and [updateTodo] return the validation error object and
    leave the database, the uuid source and the clock untouched; nothing
    is handed to the breaker and nothing is published. *)
Theorem invalid_input_stops_at_resolver :
  (forall (input : CreateTodoInput.t) (cid : string) (w : World Db),
     isValidCreate input = false ->
     exists (e : ValidationError.t) (w' : World Db) (dt : list Event),
       todoResolvers.createTodo input cid w =
         (Return (ResValidationError e), w') /\
       ValidationError.fields e <> [] /\
       env w' = env w /\ uuidCalls w' = uuidCalls w /\
       clockReads w' = clockReads w /\
       trace w' = trace w ++ dt /\ attempts dt = 0%nat /\ published dt = []) /\
  (forall (id : string) (input : UpdateTodoInput.t) (cid : string)
          (w : World Db),
     isValidUpdate input = false ->
     exists (e : ValidationError.t) (w' : World Db) (dt : list Event),
       todoResolvers.updateTodo id input cid w =
         (Return (ResValidationError e), w') /\
       ValidationError.fields e <> [] /\
       env w' = env w /\ uuidCalls w' = uuidCalls w /\
       clockReads w' = clockReads w /\
       trace w' = trace w ++ dt /\ attempts dt = 0%nat /\ published dt = []).
Proof.
  split.
  - intros input cid w Hinv.
    unfold todoResolvers.createTodo, validateInput.
    unfold isValidCreate in Hinv.
    destruct (CreateTodoInputSchema input) as [d|issues] eqn:Hs;
      [discriminate|].
    assert (Hne : issues <> []).
    { unfold CreateTodoInputSchema in Hs.
      match type of Hs with
      | context [match ?l with [] => _ | _ :: _ => _ end] =>
          destruct l; [discriminate|]
      end.
      injection Hs as <-. discriminate. }
    unfold bind, logAt, emit, ret. cbn.
    eexists _, _, _. split; [reflexivity|]. cbn.
    split; [destruct issues; [contradiction|discriminate]|].
    repeat (split; [reflexivity|]).
    split; [rewrite <- app_assoc; reflexivity|]. split; reflexivity.
  - intros id input cid w Hinv.
    unfold todoResolvers.updateTodo, validateInput.
    unfold isValidUpdate in Hinv.
    destruct (UpdateTodoInputSchema input) as [d|issues] eqn:Hs;
      [discriminate|].
    assert (Hne : issues <> []).
    { unfold UpdateTodoInputSchema in Hs.
      match type of Hs with
      | context [match ?l with [] => _ | _ :: _ => _ end] =>
          destruct l; [discriminate|]
      end.
      injection Hs as <-. discriminate. }
    unfold bind, logAt, emit, ret. cbn.
    eexists _, _, _. split; [reflexivity|]. cbn.
    split; [destruct issues; [contradiction|discriminate]|].
    repeat (split; [reflexivity|]).
    split; reflexivity.
Qed.

(** ** The event bus *)

Section BusFacts.
Context {St : Type}.
Implicit Types (m : @EventBus.t St) (h : @EventBus.Handler St).

Lemma bus_get_set_same m k hs : EventBus.get (EventBus.set m k hs) k = Some hs.
Proof.
  induction m as [|[k' old] m IH]; cbn.
  - rewrite String.eqb_refl. reflexivity.
  - destruct (String.eqb k' k) eqn:Hk; cbn; rewrite Hk; [reflexivity|exact IH].
Qed.

Lemma bus_get_set_other m k k' hs :
  k' <> k -> EventBus.get (EventBus.set m k hs) k' = EventBus.get m k'.
Proof.
  intros Hne. induction m as [|[k0 old] m IH]; cbn.
  - apply String.eqb_neq in Hne. rewrite String.eqb_sym, Hne. reflexivity.
  - destruct (String.eqb k0 k) eqn:Hk; cbn.
    + apply String.eqb_eq in Hk. subst k0.
      apply String.eqb_neq in Hne. rewrite String.eqb_sym, Hne. reflexivity.
    + destruct (String.eqb k0 k'); [reflexivity|exact IH].
Qed.

Lemma bus_get_push_same m k h hs :
  EventBus.get m k = Some hs ->
  EventBus.get (EventBus.push m k h) k = Some (hs ++ [h]).
Proof.
  induction m as [|[k' old] m IH]; cbn; [discriminate|].
  destruct (String.eqb k' k) eqn:Hk; cbn; rewrite Hk.
  - intros [= ->]. reflexivity.
  - exact IH.
Qed.

Lemma bus_get_push_other m k k' h :
  k' <> k -> EventBus.get (EventBus.push m k h) k' = EventBus.get m k'.
Proof.
  intros Hne. induction m as [|[k0 old] m IH]; cbn; [reflexivity|].
  destruct (String.eqb k0 k) eqn:Hk; cbn.
  - apply String.eqb_eq in Hk. subst k0.
    apply String.eqb_neq in Hne. rewrite String.eqb_sym, Hne. reflexivity.
  - destruct (String.eqb k0 k'); [reflexivity|exact IH].
Qed.

(** X20: Subscribe, then look up: after [subscribe(eventType, handler)] the
    handlers of that type are the ones subscribed before, in their
    order, followed by the new one; the handlers of every other type are
    as they were. *)
Theorem subscribe_appends_handler :
  forall m (eventType : string) h,
    EventBus.get (EventBus.subscribe m eventType h) eventType =
      Some (match EventBus.get m eventType with
            | Some hs => hs
            | None => []
            end ++ [h]) /\
    forall other, other <> eventType ->
      EventBus.get (EventBus.subscribe m eventType h) other =
      EventBus.get m other.
Proof.
  intros m k h. unfold EventBus.subscribe, EventBus.has.
  destruct (EventBus.get m k) as [hs|] eqn:Hget; cbn [negb].
  - split; [apply bus_get_push_same; exact Hget|].
    intros other Hne. apply bus_get_push_other. exact Hne.
  - split.
    + apply (bus_get_push_same _ _ _ (hs := [])). apply bus_get_set_same.
    + intros other Hne. rewrite bus_get_push_other by exact Hne.
      apply bus_get_set_other. exact Hne.
Qed.

(** With no subscriber for the type of the event, [publish] is the
    publication used by the service: the event and one log entry. *)
Lemma publish_without_subscribers m (event : CloudEvent.t) :
  EventBus.get m (CloudEvent.type event) = None ->
  forall w : World St, EventBus.publish m event w = eventBus_publish event w.
Proof.
  intros Hget w. unfold EventBus.publish, EventBus.handlersFor.
  rewrite Hget. unfold eventBus_publish, bind, logAt, emit, ret. reflexivity.
Qed.

Lemma forEach_envHandlers
  (fs : list (CloudEvent.t -> St -> Outcome unit * St)) (event : CloudEvent.t) :
  (forall f s, In f fs -> fst (f event s) <> Throw ThrownNullish) ->
  forall w : World St,
    exists dt,
      EventBus.forEach (map envHandler fs) event w =
        (Return tt,
         mkWorld (afterHandlers fs event (env w)) (random w) (randomCalls w)
                 (clock w) (clockReads w) (uuid w) (uuidCalls w)
                 (trace w ++ dt)) /\
      handlerFailures dt = failuresOf fs event (env w) /\
      published dt = [] /\ attempts dt = 0%nat.
Proof.
  induction fs as [|f fs IH]; intros Hobj w.
  - exists []. cbn. rewrite app_nil_r. destruct w. auto.
  - cbn [map EventBus.forEach]. unfold bind at 1.
    unfold EventBus.runHandler, tryCatch, envHandler at 1, onEnv.
    pose proof (Hobj f (env w) (or_introl eq_refl)) as Hf.
    destruct (f event (env w)) as [[[]|[|e]] s] eqn:Ef; cbn in Hf;
      [|contradiction|].
    + match goal with
      | |- context [EventBus.forEach _ _ ?w1] =>
          destruct (IH (fun g s0 Hg => Hobj g s0 (or_intror Hg)) w1)
            as (dt & Hrun & Hfail & Hpub & Hatt)
      end.
      rewrite Hrun. cbn [env random randomCalls clock clockReads uuid
                         uuidCalls trace].
      exists dt. unfold afterHandlers. cbn [fold_left failuresOf].
      rewrite Ef. auto.
    + cbn [messageOf]. unfold bind, ret, logAt, emit.
      cbn [env random randomCalls clock clockReads uuid uuidCalls trace].
      match goal with
      | |- context [EventBus.forEach _ _ ?w1] =>
          destruct (IH (fun g s0 Hg => Hobj g s0 (or_intror Hg)) w1)
            as (dt & Hrun & Hfail & Hpub & Hatt)
      end.
      rewrite Hrun. cbn [env random randomCalls clock clockReads uuid
                         uuidCalls trace] in Hfail |- *.
      unfold afterHandlers. cbn [fold_left failuresOf]. rewrite Ef.
      cbn [snd].
      eexists. split; [rewrite <- app_assoc; reflexivity|].
      cbn [app handlerFailures published attempts].
      cbn [String.eqb Ascii.eqb Bool.eqb andb].
      rewrite Hfail. auto.
Qed.

(** X21: [publish] with handlers that work on the environment and fail, when
    they fail, with an [Error] object: [publish] itself returns; every
    handler subscribed to the type of the event has run, in subscription
    order, a failure of one not keeping the later ones from running; the
    failures, and only they, are logged with their messages; and the
    'Event published' entry counts the subscribers. *)
Theorem publish_runs_every_handler :
  forall m (event : CloudEvent.t)
         (fs : list (CloudEvent.t -> St -> Outcome unit * St)) (w : World St),
    EventBus.get m (CloudEvent.type event) = Some (map envHandler fs) ->
    (forall f s, In f fs -> fst (f event s) <> Throw ThrownNullish) ->
    exists dt,
      fst (EventBus.publish m event w) = Return tt /\
      env (snd (EventBus.publish m event w)) = afterHandlers fs event (env w) /\
      trace (snd (EventBus.publish m event w)) =
        trace w ++
        [EvPublish event;
         EvLog LevelInfo None "Event published"
           [("eventId", LvString (CloudEvent.id event));
            ("eventType", LvString (CloudEvent.type event));
            ("subject", LvString (CloudEvent.subject event));
            ("subscriberCount", LvInt (Z.of_nat (List.length fs)))]] ++ dt /\
      handlerFailures dt = failuresOf fs event (env w) /\
      published dt = [].
Proof.
  intros m event fs w Hget Hobj.
  unfold EventBus.publish, EventBus.handlersFor. rewrite Hget.
  unfold bind, logAt, emit.
  cbn [env random randomCalls clock clockReads uuid uuidCalls trace].
  match goal with
  | |- context [EventBus.forEach _ _ ?w1] =>
      destruct (forEach_envHandlers fs event Hobj w1)
        as (dt & Hrun & Hfail & Hpub & _)
  end.
  cbn [env random randomCalls clock clockReads uuid uuidCalls trace]
    in Hrun, Hfail.
  rewrite Hrun. cbn [fst snd env trace]. exists dt.
  rewrite length_map in *.
  split; [reflexivity|]. split; [reflexivity|].
  split; [rewrite <- !app_assoc; reflexivity|].
  split; assumption.
Qed.

(** X22: A handler that rejects with [undefined] or [null] is not swallowed:
    reading [error.message] fails inside the [catch], [publish] throws
    that TypeError, and the handlers after it are not run. *)
Theorem publish_nullish_rejection_escapes :
  forall m (event : CloudEvent.t) h (hs : list (@EventBus.Handler St))
         (w : World St),
    EventBus.get m (CloudEvent.type event) = Some (h :: hs) ->
    (forall w0, h event w0 = (Throw ThrownNullish, w0)) ->
    fst (EventBus.publish m event w) = Throw (ThrownError (typeError "message")) /\
    trace (snd (EventBus.publish m event w)) =
      trace w ++
      [EvPublish event;
       EvLog LevelInfo None "Event published"
         [("eventId", LvString (CloudEvent.id event));
          ("eventType", LvString (CloudEvent.type event));
          ("subject", LvString (CloudEvent.subject event));
          ("subscriberCount", LvInt (Z.of_nat (S (List.length hs))))]].
Proof.
  intros m event h hs w Hget Hh.
  unfold EventBus.publish, EventBus.handlersFor. rewrite Hget.
  cbn [EventBus.forEach]. unfold EventBus.runHandler, tryCatch, bind, logAt, emit.
  cbn [env random randomCalls clock clockReads uuid uuidCalls trace].
  rewrite Hh. cbn. rewrite <- app_assoc. split; reflexivity.
Qed.

End BusFacts.

(** ** Health probes *)

(** X23: [readinessCheck] sends exactly one response and asks the pool
    exactly once, with SELECT 1.  When the pool answers, the response is
    200 'ready' with the check 'ok' and the time between the two readings
    of [Date.now()]; when the pool fails with an [Error] object, it is 503
    'not ready' with the check 'fail' and the message of the error, which
    is also logged.  A rejection with [undefined] or [null] escapes as a
    TypeError and no response is sent at all.  [livenessCheck], on the
    same world, answers 200 'alive' whatever the pool would do, and
    leaves the pool alone: no statement is sent and no outcome of the
    pool is consumed. *)
Theorem health_probes_report :
  forall (w : World Health.Env),
    Health.queries (env (snd (Health.readinessCheck w))) =
      Health.queries (env w) ++ ["SELECT 1"] /\
    match Health.nextOutcome (env w) with
    | None =>
        fst (Health.readinessCheck w) = Return tt /\
        Health.sent (env (snd (Health.readinessCheck w))) =
          Health.sent (env w) ++
          [Health.mkResponse 200
             (Health.ReadinessBody "ready" (clock w (clockReads w))
                (Health.mkHealthCheck "ok"
                   (Some (Health.dateNow (env w) (S (Health.dateNowReads (env w)))
                          - Health.dateNow (env w) (Health.dateNowReads (env w)))%Z)
                   None))] /\
        trace (snd (Health.readinessCheck w)) = trace w
    | Some (ThrownError e) =>
        fst (Health.readinessCheck w) = Return tt /\
        Health.sent (env (snd (Health.readinessCheck w))) =
          Health.sent (env w) ++
          [Health.mkResponse 503
             (Health.ReadinessBody "not ready" (clock w (clockReads w))
                (Health.mkHealthCheck "fail" None (Some (JsError.message e))))] /\
        trace (snd (Health.readinessCheck w)) =
          trace w ++
          [EvLog LevelError None "Database health check failed"
             [("error", LvString (JsError.message e))]]
    | Some ThrownNullish =>
        fst (Health.readinessCheck w) = Throw (ThrownError (typeError "message")) /\
        Health.sent (env (snd (Health.readinessCheck w))) = Health.sent (env w)
    end /\
    fst (Health.livenessCheck w) = Return tt /\
    Health.sent (env (snd (Health.livenessCheck w))) =
      Health.sent (env w) ++
      [Health.mkResponse 200
         (Health.LivenessBody "alive" (clock w (clockReads w))
                              (Health.uptime (env w)))] /\
    Health.queries (env (snd (Health.livenessCheck w))) = Health.queries (env w) /\
    Health.pool (env (snd (Health.livenessCheck w))) = Health.pool (env w) /\
    trace (snd (Health.livenessCheck w)) = trace w.
Proof.
  intros w.
  assert (Hlive :
    fst (Health.livenessCheck w) = Return tt /\
    Health.sent (env (snd (Health.livenessCheck w))) =
      Health.sent (env w) ++
      [Health.mkResponse 200
         (Health.LivenessBody "alive" (clock w (clockReads w))
                              (Health.uptime (env w)))] /\
    Health.queries (env (snd (Health.livenessCheck w))) = Health.queries (env w) /\
    Health.pool (env (snd (Health.livenessCheck w))) = Health.pool (env w) /\
    trace (snd (Health.livenessCheck w)) = trace w)
    by (repeat split; reflexivity).
  revert Hlive. generalize (Health.livenessCheck w). intros live Hlive.
  unfold Health.nextOutcome.
  unfold Health.readinessCheck, Health.checkDatabase, Health.db_query,
    Health.Date_now, Health.send, tryCatch, bind, ret, logAt, emit, onEnv,
    nowISO.
  cbn [env random randomCalls clock clockReads uuid uuidCalls trace].
  destruct (Health.pool (env w)) as [|[[|e]|] rest]; cbn; auto.
Qed.

(** ** The renaming helpers *)

Section AutoFixFacts.
Import AutoFix.

Lemma toUpperCase_not_lower (c : ascii) :
  isLower c = true -> isLower (toUpperCase c) = false.
Proof.
  unfold toUpperCase. intros H. rewrite H. unfold isLower in *.
  apply andb_true_iff in H as [Hlo Hhi].
  apply Nat.leb_le in Hlo. apply Nat.leb_le in Hhi.
  rewrite nat_ascii_embedding by lia.
  apply andb_false_iff. left. apply Nat.leb_gt. lia.
Qed.

Lemma toUpperCase_not_underscore (c : ascii) :
  isUnderscore c = false -> isUnderscore (toUpperCase c) = false.
Proof.
  unfold toUpperCase. intros H. destruct (isLower c) eqn:Hl; [|exact H].
  unfold isLower in Hl. apply andb_true_iff in Hl as [Hlo Hhi].
  apply Nat.leb_le in Hlo. apply Nat.leb_le in Hhi.
  unfold isUnderscore. apply Ascii.eqb_neq. intros Heq.
  apply (f_equal nat_of_ascii) in Heq.
  rewrite nat_ascii_embedding in Heq by lia. cbn in Heq. lia.
Qed.

Lemma underscore_lower_false (c : ascii) :
  isLower c = true -> isUnderscore c = false.
Proof.
  intros H. destruct (isUnderscore c) eqn:Hu; [|reflexivity].
  unfold isUnderscore in Hu. apply Ascii.eqb_eq in Hu. subst. discriminate.
Qed.

Lemma underscore_not_lower (c : ascii) :
  isUnderscore c = true -> isLower c = false.
Proof.
  unfold isUnderscore. intros H. apply Ascii.eqb_eq in H. subst. reflexivity.
Qed.

(** The first character that [snakeToCamel] writes is not a lower-case
    letter unless it is the first character read. *)
Lemma snakeToCamel_head :
  forall (n : nat) (s : string), (String.length s <= n)%nat ->
    match s, snakeToCamel s with
    | String a _, String b _ => b = a \/ isLower b = false
    | EmptyString, EmptyString => True
    | _, _ => False
    end.
Proof.
  induction n as [|n IH]; intros [|a [|c rest]] Hlen; cbn in Hlen |- *;
    try lia; auto.
  destruct (isUnderscore a && isLower c) eqn:Hj; [|auto].
  right. apply toUpperCase_not_lower.
  apply andb_true_iff in Hj as [_ Hc]. exact Hc.
Qed.

Lemma snakeToCamel_cons (a c : ascii) (rest : string) :
  snakeToCamel (String a (String c rest)) =
  if isUnderscore a && isLower c
  then String (toUpperCase c) (snakeToCamel rest)
  else String a (snakeToCamel (String c rest)).
Proof. reflexivity. Qed.

Lemma hasSnakeJoint_cons (a c : ascii) (rest : string) :
  hasSnakeJoint (String a (String c rest)) =
  (isUnderscore a && isLower c) || hasSnakeJoint (String c rest).
Proof. reflexivity. Qed.

Lemma snakeToCamel_no_joint_n :
  forall (n : nat) (s : string), (String.length s <= n)%nat ->
    hasSnakeJoint (snakeToCamel s) = false.
Proof.
  induction n as [|n IH]; intros [|a [|c rest]] Hlen; cbn in Hlen;
    try lia; try reflexivity.
  rewrite snakeToCamel_cons.
  destruct (isUnderscore a && isLower c) eqn:Hj.
  - (* the pair is replaced by the capital *)
    pose proof (IH rest ltac:(lia)) as Hrest.
    pose proof (@snakeToCamel_head (String.length rest) rest (le_n _)) as Hhead.
    destruct rest as [|r rest']; [reflexivity|].
    destruct (snakeToCamel (String r rest')) as [|b out] eqn:Hout;
      [contradiction|].
    rewrite hasSnakeJoint_cons, Hrest.
    apply andb_true_iff in Hj as [_ Hc].
    assert (isUnderscore (toUpperCase c) = false) as ->; [|reflexivity].
    apply toUpperCase_not_underscore.
    destruct (isUnderscore c) eqn:Hu; [|reflexivity].
    apply underscore_not_lower in Hu. congruence.
  - (* the character is kept *)
    pose proof (IH (String c rest) ltac:(cbn; lia)) as Hrest.
    pose proof (@snakeToCamel_head (String.length (String c rest))
                  (String c rest) (le_n _)) as Hhead.
    cbv iota beta in Hhead.
    destruct (snakeToCamel (String c rest)) as [|b out] eqn:Hout;
      [exfalso; exact Hhead|].
    rewrite hasSnakeJoint_cons, Hrest, orb_false_r.
    apply andb_false_iff. apply andb_false_iff in Hj.
    destruct Hhead as [-> | Hb]; [exact Hj | right; exact Hb].
Qed.

Lemma snakeToCamel_fixed_n :
  forall (n : nat) (s : string), (String.length s <= n)%nat ->
    hasSnakeJoint s = false -> snakeToCamel s = s.
Proof.
  induction n as [|n IH]; intros [|a [|c rest]] Hlen Hs; cbn in Hlen;
    try lia; try reflexivity.
  rewrite hasSnakeJoint_cons in Hs. apply orb_false_iff in Hs as [Hj Hrest].
  rewrite snakeToCamel_cons, Hj. f_equal.
  apply IH; [cbn; lia|exact Hrest].
Qed.

(** X24: One pass of the renaming is complete and a second pass changes
    nothing: the result has no underscore directly followed by a
    lower-case letter, applying the renaming again gives the same
    string, and a name without such a place is left as it is. *)
Theorem snakeToCamel_complete :
  forall (s : string),
    hasSnakeJoint (snakeToCamel s) = false /\
    snakeToCamel (snakeToCamel s) = snakeToCamel s /\
    (hasSnakeJoint s = false -> snakeToCamel s = s).
Proof.
  intros s.
  assert (H : hasSnakeJoint (snakeToCamel s) = false)
    by (apply (@snakeToCamel_no_joint_n (String.length s)); apply le_n).
  split; [exact H|]. split.
  - apply (@snakeToCamel_fixed_n (String.length (snakeToCamel s)));
      [apply le_n|exact H].
  - apply (@snakeToCamel_fixed_n (String.length s)). apply le_n.
Qed.

Lemma hasUnderscore_app (a b : string) :
  hasUnderscore (a ++ b) = hasUnderscore a || hasUnderscore b.
Proof.
  induction a as [|c a IH]; cbn; [reflexivity|].
  rewrite IH, orb_assoc. reflexivity.
Qed.

Lemma capitalize_no_underscore (word : string) :
  hasUnderscore word = false -> hasUnderscore (capitalize word) = false.
Proof.
  destruct word as [|c rest]; cbn; [reflexivity|].
  intros H. apply orb_false_iff in H as [Hc Hrest].
  rewrite (toUpperCase_not_underscore _ Hc), Hrest. reflexivity.
Qed.

Lemma splitUnderscore_pieces (s : string) :
  forall acc, hasUnderscore acc = false ->
    Forall (fun piece => hasUnderscore piece = false) (splitUnderscore acc s).
Proof.
  induction s as [|c s IH]; intros acc Hacc; cbn.
  - constructor; [exact Hacc|constructor].
  - destruct (isUnderscore c) eqn:Hc.
    + constructor; [exact Hacc|]. apply IH. reflexivity.
    + apply IH. rewrite hasUnderscore_app, Hacc. cbn. rewrite Hc. reflexivity.
Qed.

Lemma concat_no_underscore (pieces : list string) :
  Forall (fun piece => hasUnderscore piece = false) pieces ->
  hasUnderscore (String.concat "" pieces) = false.
Proof.
  induction pieces as [|p pieces IH]; intros H; [reflexivity|].
  inversion H as [|? ? Hp Hrest]; subst. specialize (IH Hrest).
  destruct pieces as [|q pieces]; cbn [String.concat]; [exact Hp|].
  rewrite !hasUnderscore_app, Hp. cbn [hasUnderscore append orb].
  exact IH.
Qed.

Lemma string_app_nil_r (s : string) : (s ++ "")%string = s.
Proof. induction s as [|c s IH]; cbn; [reflexivity|rewrite IH; reflexivity]. Qed.

Lemma string_app_assoc (a b c : string) :
  ((a ++ b) ++ c)%string = (a ++ (b ++ c))%string.
Proof. induction a as [|x a IH]; cbn; [reflexivity|rewrite IH; reflexivity]. Qed.

Lemma splitUnderscore_first (s : string) :
  forall acc, exists pre others,
    splitUnderscore acc s = (acc ++ pre)%string :: others.
Proof.
  induction s as [|c s IH]; intros acc; cbn.
  - exists EmptyString, []. rewrite string_app_nil_r. reflexivity.
  - destruct (isUnderscore c).
    + exists EmptyString. eexists. rewrite string_app_nil_r. reflexivity.
    + destruct (IH (acc ++ String c EmptyString)%string) as (pre & others & ->).
      exists (String c pre), others.
      rewrite string_app_assoc. reflexivity.
Qed.

Lemma toUpperCase_upper (c : ascii) :
  isLower c = true -> isUpper (toUpperCase c) = true.
Proof.
  unfold toUpperCase. intros H. rewrite H. unfold isLower, isUpper in *.
  apply andb_true_iff in H as [Hlo Hhi].
  apply Nat.leb_le in Hlo. apply Nat.leb_le in Hhi.
  rewrite nat_ascii_embedding by lia.
  apply andb_true_iff. split; apply Nat.leb_le; lia.
Qed.

(** X25: The Pascal-case form of a name [[a-z][a-z_]*] starts with the capital
    of its first letter and has no underscore left. *)
Theorem pascalCase_of_name :
  forall (name : string),
    isName name = true ->
    hasUnderscore (pascalCase name) = false /\
    exists c rest out,
      name = String c rest /\
      pascalCase name = String (toUpperCase c) out /\
      isUpper (toUpperCase c) = true.
Proof.
  intros name Hname. split.
  - unfold pascalCase. apply concat_no_underscore. apply Forall_map.
    eapply Forall_impl; [|apply splitUnderscore_pieces; reflexivity].
    intros piece. apply capitalize_no_underscore.
  - destruct name as [|c rest]; [discriminate|]. cbn in Hname.
    apply andb_true_iff in Hname as [Hc _].
    unfold pascalCase. cbn [splitUnderscore].
    rewrite (underscore_lower_false c Hc). cbn [append].
    destruct (splitUnderscore_first rest (String c EmptyString))
      as (pre & others & ->).
    cbn [append map capitalize].
    exists c, rest.
    destruct (map capitalize others) as [|o os]; cbn [String.concat append];
      eexists; (split; [reflexivity|]); (split; [reflexivity|]);
      apply toUpperCase_upper; exact Hc.
Qed.

End AutoFixFacts.

(** ** Correlation ids in the log *)



(** ** Concrete runs of the further properties *)


Lemma withRetry_result_witness :
  (fst (withRetry (dbBreaker_fire SelectAll) 3 1000 (timeoutsWorld 1)),
   env (snd (withRetry (dbBreaker_fire SelectAll) 3 1000 (timeoutsWorld 1)))) =
  nthOutcome (dbBreaker_fire SelectAll) (Nat.min 1 (Z.to_nat 3 - 1))
             (env (timeoutsWorld 1)).
Proof.
  apply (@withRetry_result Db QueryResult (dbBreaker_fire SelectAll) 3 1000 1
                           (timeoutsWorld 1)).
  - lia.
  - reflexivity.
Defined.



Lemma findById_first_row_or_null_witness :
  fst (TodoService.findById "t1" calmWorld) =
    Return (option_map TodoService.mapRow
                       (firstWithId "t1" (table (env calmWorld)))).
Proof.
  apply (proj1 (proj2 (proj2 (findById_first_row_or_null "t1" calmWorld)))).
  reflexivity.
Defined.




Lemma writes_leave_other_rows_witness :
  filter (fun r => negb (hasId "zz" r))
         (table (env (snd (perform (OpDelete "zz") calmWorld)))) =
  filter (fun r => negb (hasId "zz" r)) (table (env calmWorld)).
Proof.
  apply (@writes_leave_other_rows (OpDelete "zz") "zz" calmWorld).
  reflexivity.
Defined.

Lemma delete_then_findById_witness :
  firstWithId "t1" (table (env (snd (TodoService.delete "t1" calmWorld)))) = None /\
  (passes 1 (schedule (env (snd (TodoService.delete "t1" calmWorld)))) = true ->
   fst (TodoService.findById "t1" (snd (TodoService.delete "t1" calmWorld))) =
     Return None).
Proof.
  apply (@delete_then_findById "t1" calmWorld
           (snd (TodoService.delete "t1" calmWorld))
           (TodoService.mapRow sampleRow)).
  reflexivity.
Defined.

Lemma resolvers_throw_internal_error_witness :
  exists m,
    internalError "Failed to delete todo" "Timed out after 5000ms" =
    internalError (failureMessage (OpDelete "t1")) m.
Proof.
  apply (@resolvers_throw_internal_error (OpDelete "t1") "req-1"
           (timeoutsWorld 3)).
  reflexivity.
Defined.

Lemma delete_complete_missing_id_witness :
  fst (todoResolvers.completeTodo "non-existent" "test-123" calmWorld) =
    Return (ResTodoNotFoundError "Todo not found" "TODO_NOT_FOUND" "non-existent").
Proof.
  apply (@delete_complete_missing_id "non-existent" "test-123" calmWorld eq_refl
           (todoResolvers.completeTodo "non-existent" "test-123" calmWorld)
           (or_intror eq_refl)).
  reflexivity.
Defined.


Lemma invalid_input_stops_at_resolver_witness :
  exists (e : ValidationError.t) (w' : World Db),
    todoResolvers.updateTodo "t1"
      (UpdateTodoInput.mk None None (Some "DONE") None) "req-1" calmWorld =
      (Return (ResValidationError e), w') /\
    env w' = env calmWorld.
Proof.
  destruct (proj2 invalid_input_stops_at_resolver "t1"
              (UpdateTodoInput.mk None None (Some "DONE") None) "req-1"
              calmWorld eq_refl)
    as (e & w' & dt & Hrun & _ & Henv & _).
  exists e, w'. split; assumption.
Defined.

Lemma subscribe_appends_handler_witness :
  EventBus.get
    (EventBus.subscribe sampleBus "todos.todo.deleted.v1" nullishSubscriber)
    "todos.todo.created.v1" =
  EventBus.get sampleBus "todos.todo.created.v1".
Proof.
  apply (proj2 (subscribe_appends_handler sampleBus "todos.todo.deleted.v1"
                                          nullishSubscriber)).
  discriminate.
Defined.

Lemma publish_runs_every_handler_witness :
  exists dt,
    fst (EventBus.publish sampleBus sampleEvent busWorld) = Return tt /\
    env (snd (EventBus.publish sampleBus sampleEvent busWorld)) =
      afterHandlers [failingSubscriber; countingSubscriber] sampleEvent
                    (env busWorld) /\
    trace (snd (EventBus.publish sampleBus sampleEvent busWorld)) =
      trace busWorld ++
      [EvPublish sampleEvent;
       EvLog LevelInfo None "Event published"
         [("eventId", LvString (CloudEvent.id sampleEvent));
          ("eventType", LvString (CloudEvent.type sampleEvent));
          ("subject", LvString (CloudEvent.subject sampleEvent));
          ("subscriberCount",
           LvInt (Z.of_nat (List.length [failingSubscriber;
                                         countingSubscriber])))]] ++ dt /\
    handlerFailures dt =
      failuresOf [failingSubscriber; countingSubscriber] sampleEvent
                 (env busWorld) /\
    published dt = [].
Proof.
  apply (@publish_runs_every_handler nat sampleBus sampleEvent
           [failingSubscriber; countingSubscriber] busWorld).
  - reflexivity.
  - intros f s [<-|[<-|[]]]; cbn; discriminate.
Defined.

(** The same run, evaluated: both subscribers have run (1 + 10) and one
    failure is logged. *)
Example publish_sample_run :
  env (snd (EventBus.publish sampleBus sampleEvent busWorld)) = 11%nat /\
  handlerFailures (trace (snd (EventBus.publish sampleBus sampleEvent busWorld)))
    = ["mail server down"].
Proof. split; reflexivity. Qed.

Lemma publish_nullish_rejection_escapes_witness :
  fst (EventBus.publish
         (EventBus.subscribe sampleBus "todos.todo.deleted.v1" nullishSubscriber)
         (CloudEvent.mk "e2" "/todo-service" "1.0" "todos.todo.deleted.v1"
                        "application/json" "2025-11-14T10:00:00.000Z" "todo/t1" [])
         busWorld) =
  Throw (ThrownError (typeError "message")).
Proof.
  apply (@publish_nullish_rejection_escapes nat
           (EventBus.subscribe sampleBus "todos.todo.deleted.v1" nullishSubscriber)
           (CloudEvent.mk "e2" "/todo-service" "1.0" "todos.todo.deleted.v1"
                          "application/json" "2025-11-14T10:00:00.000Z"
                          "todo/t1" [])
           nullishSubscriber [] busWorld).
  - reflexivity.
  - intros w0. reflexivity.
Defined.

Lemma pascalCase_of_name_witness :
  AutoFix.hasUnderscore (AutoFix.pascalCase "todo_priority") = false /\
  exists c rest out,
    "todo_priority" = String c rest /\
    AutoFix.pascalCase "todo_priority" = String (AutoFix.toUpperCase c) out /\
    AutoFix.isUpper (AutoFix.toUpperCase c) = true.
Proof.
  apply (pascalCase_of_name "todo_priority"). reflexivity.
Defined.

Lemma snakeToCamel_complete_witness :
  AutoFix.snakeToCamel "priorityLevel" = "priorityLevel".
Proof.
  apply (proj2 (proj2 (snakeToCamel_complete "priorityLevel"))).
  reflexivity.
Defined.

(** Sample runs of the renaming and of the probes. *)
Example autofix_sample_runs :
  AutoFix.snakeToCamel "priority_set_at" = "prioritySetAt" /\
  AutoFix.snakeToCamel "a__b_" = "a_B_" /\
  AutoFix.pascalCase "todo_priority" = "TodoPriority".
Proof. repeat split; reflexivity. Qed.

Example readiness_sample_runs :
  Health.sent (env (snd (Health.readinessCheck (healthWorld [])))) =
    [Health.mkResponse 200
       (Health.ReadinessBody "ready" "2025-11-14T10:00:00.000Z"
          (Health.mkHealthCheck "ok" (Some 7%Z) None))] /\
  Health.sent (env (snd (Health.readinessCheck
                           (healthWorld [Some timeoutError])))) =
    [Health.mkResponse 503
       (Health.ReadinessBody "not ready" "2025-11-14T10:00:00.000Z"
          (Health.mkHealthCheck "fail" None (Some "Timed out after 5000ms")))].
Proof. split; reflexivity. Qed.
